(** * Email Slicer with Insights: the parsing and classification core

    A shallow embedding of [email_slicer_with_insights.py]: the validator,
    the parser, the classification tables and functions, the "fun" creation
    year and the bulk-analysis loop, followed by the properties proved of
    them.

    Modelling conventions.
    - A Python [str] is a Rocq [string]; the character of number [n] stands
      for the code point U+00[n], so the development covers the strings whose
      code points are below 256.  On that range [str.strip], [str.lower],
      [str.splitlines] and the UTF-8 encoder are written out in full.
    - A function that can raise returns an [option]; [None] is the exception.
    - The dictionaries [TLD_INFO] and [COMMON_FIXES] and the per-line record
      dictionaries of the bulk loop are [gmap]s keyed by strings; the
      [mapping] of [provider_insights], which the code iterates in insertion
      order, is an association list in declaration order. *)

From Stdlib Require Import ZArith NArith Lia List Ascii String Bool DecimalString.
From stdpp Require Import gmap strings.
Import ListNotations.

Local Open Scope string_scope.

(* With stdpp loaded [simpl] no longer unfolds string concatenation; the
   proofs below compute with it. *)
#[local] Arguments String.append !_ _ /.

(** ** Python string primitives *)

Module PyStr.

(** [ord c]: the code point of a character. *)
Definition ord (c : ascii) : N := N_of_ascii c.

Definition between (lo hi : N) (c : ascii) : bool :=
  ((lo <=? ord c) && (ord c <=? hi))%N.

(** [str.isspace] on one character, for code points below 256:
    TAB..CR, FS..US, space, NEL and NBSP. *)
Definition isspace (c : ascii) : bool :=
  between 9 13 c || between 28 32 c || (ord c =? 133)%N || (ord c =? 160)%N.

Fixpoint lstrip (s : string) : string :=
  match s with
  | EmptyString => EmptyString
  | String c s' => if isspace c then lstrip s' else s
  end.

Fixpoint rstrip (s : string) : string :=
  match s with
  | EmptyString => EmptyString
  | String c s' =>
      match rstrip s' with
      | EmptyString => if isspace c then EmptyString else String c EmptyString
      | r => String c r
      end
  end.

(** [s.strip()] *)
Definition strip (s : string) : string := rstrip (lstrip s).

(** [str.lower] on one character: A..Z and the Latin-1 capitals
    U+00C0..U+00DE (the multiplication sign U+00D7 apart) move up by 32. *)
Definition lower_char (c : ascii) : ascii :=
  if between 65 90 c || (between 192 222 c && negb (ord c =? 215)%N)
  then ascii_of_N (ord c + 32)
  else c.

(** [s.lower()] *)
Fixpoint lower (s : string) : string :=
  match s with
  | EmptyString => EmptyString
  | String c s' => String (lower_char c) (lower s')
  end.

(** [s.startswith(p)] *)
Fixpoint startswith (s p : string) {struct p} : bool :=
  match p, s with
  | EmptyString, _ => true
  | String _ _, EmptyString => false
  | String a p', String b s' => Ascii.eqb a b && startswith s' p'
  end.

(** [sub in s] *)
Fixpoint str_in (sub s : string) : bool :=
  startswith s sub ||
  match s with
  | EmptyString => false
  | String _ s' => str_in sub s'
  end.

(** [s.endswith(suf)] *)
Fixpoint endswith (s suf : string) : bool :=
  String.eqb s suf ||
  match s with
  | EmptyString => false
  | String _ s' => endswith s' suf
  end.

(** [s.endswith((suf1, suf2, ...))] *)
Definition endswith_any (s : string) (sufs : list string) : bool :=
  existsb (endswith s) sufs.

(** Prepend a character to the first field of a split under construction. *)
Definition cons_head (c : ascii) (fields : list string) : list string :=
  match fields with
  | h :: t => String c h :: t
  | [] => [String c EmptyString]
  end.

(** [s.split(sep)] for a one-character separator. *)
Fixpoint split (sep : ascii) (s : string) : list string :=
  match s with
  | EmptyString => [EmptyString]
  | String c s' =>
      if Ascii.eqb c sep then EmptyString :: split sep s'
      else cons_head c (split sep s')
  end.

(** [s.split(sep, 1)] for a one-character separator. *)
Fixpoint split1 (sep : ascii) (s : string) : list string :=
  match s with
  | EmptyString => [EmptyString]
  | String c s' =>
      if Ascii.eqb c sep then [EmptyString; s']
      else cons_head c (split1 sep s')
  end.

(** [sep.join(fields)] *)
Fixpoint join (sep : string) (fields : list string) : string :=
  match fields with
  | [] => EmptyString
  | [f] => f
  | f :: rest => f ++ sep ++ join sep rest
  end.

(** The line boundaries of [str.splitlines] below code point 256, CR LF
    apart: LF, VT, FF, CR, FS, GS, RS and NEL. *)
Definition islinebreak (c : ascii) : bool :=
  between 10 13 c || between 28 30 c || (ord c =? 133)%N.

(** [splitlines_from cur s]: the lines of [s], the text [cur] (kept in
    reverse) being the part of the current line already read. *)
Fixpoint splitlines_from (cur : string) (s : string) : list string :=
  match s with
  | EmptyString =>
      match cur with
      | EmptyString => []
      | _ => [String.rev cur]
      end
  | String c s' =>
      if islinebreak c then
        String.rev cur ::
          match s' with
          | String c' s'' =>
              if (ord c =? 13)%N && (ord c' =? 10)%N
              then splitlines_from EmptyString s''
              else splitlines_from EmptyString s'
          | EmptyString => []
          end
      else splitlines_from (String c cur) s'
  end.

(** [s.splitlines()] *)
Definition splitlines (s : string) : list string :=
  splitlines_from EmptyString s.

(** The string ["\n"]. *)
Definition LF : string := String "010" EmptyString.

(** [s.encode()]: UTF-8, one byte below U+0080 and two bytes from there to
    U+00FF. *)
Fixpoint encode (s : string) : list Z :=
  match s with
  | EmptyString => []
  | String c s' =>
      let n := Z.of_N (ord c) in
      if (n <? 128)%Z then n :: encode s'
      else Z.lor 192 (Z.shiftr n 6) :: Z.lor 128 (Z.land n 63) :: encode s'
  end.

End PyStr.

Import PyStr.

(** ** Regular expressions, as far as [validate_email] uses [re] *)

Module Re.

(** An item of a bracketed character set: a range [lo-hi] or one
    character. *)
Inductive set_item : Type :=
| Range (lo hi : ascii)
| Single (c : ascii).

Inductive regex : Type :=
| RNone                               (* matches nothing *)
| REps                                (* matches the empty string *)
| RChr (c : ascii)                    (* a literal character *)
| RSet (items : list set_item)        (* [...] *)
| RCat (r1 r2 : regex)
| RAlt (r1 r2 : regex)
| RStar (r : regex).

(** [r+] *)
Definition RPlus (r : regex) : regex := RCat r (RStar r).

Definition item_has (c : ascii) (i : set_item) : bool :=
  match i with
  | Range lo hi => between (ord lo) (ord hi) c
  | Single a => Ascii.eqb a c
  end.

Definition set_has (items : list set_item) (c : ascii) : bool :=
  existsb (item_has c) items.

Fixpoint nullable (r : regex) : bool :=
  match r with
  | RNone => false
  | REps => true
  | RChr _ => false
  | RSet _ => false
  | RCat r1 r2 => nullable r1 && nullable r2
  | RAlt r1 r2 => nullable r1 || nullable r2
  | RStar _ => true
  end.

(** The derivative of [r] by the character [c]. *)
Fixpoint deriv (c : ascii) (r : regex) : regex :=
  match r with
  | RNone => RNone
  | REps => RNone
  | RChr a => if Ascii.eqb a c then REps else RNone
  | RSet items => if set_has items c then REps else RNone
  | RCat r1 r2 =>
      if nullable r1
      then RAlt (RCat (deriv c r1) r2) (deriv c r2)
      else RCat (deriv c r1) r2
  | RAlt r1 r2 => RAlt (deriv c r1) (deriv c r2)
  | RStar r1 => RCat (deriv c r1) (RStar r1)
  end.

(** [fullmatch r s]: the whole of [s] is in the language of [r]. *)
Fixpoint fullmatch (r : regex) (s : string) : bool :=
  match s with
  | EmptyString => nullable r
  | String c s' => fullmatch (deriv c r) s'
  end.

(** [bool(re.match("^" body "$", s))] without flags.  Under [re.match] the
    [^] is redundant, and [$] holds at the end of the string and also just
    before a newline that ends the string: the whole of [s], or [s] less
    its final newline, is in the language of [body].  A backtracking
    matcher finds a match exactly when one exists, so the truth value is
    membership in that language. *)
Definition match_anchored (body : regex) (s : string) : bool :=
  fullmatch (RCat body (RAlt REps (RChr "010"%char))) s.

(** The language of a regular expression. *)
Inductive lang : regex -> string -> Prop :=
| LEps : lang REps EmptyString
| LChr c : lang (RChr c) (String c EmptyString)
| LSet items c : set_has items c = true -> lang (RSet items) (String c EmptyString)
| LCat r1 r2 s1 s2 : lang r1 s1 -> lang r2 s2 -> lang (RCat r1 r2) (s1 ++ s2)
| LAltL r1 r2 s : lang r1 s -> lang (RAlt r1 r2) s
| LAltR r1 r2 s : lang r2 s -> lang (RAlt r1 r2) s
| LStarNil r : lang (RStar r) EmptyString
| LStarApp r s1 s2 : lang r s1 -> lang (RStar r) s2 -> lang (RStar r) (s1 ++ s2).

End Re.

Import Re.

(** ** The validator and the parser *)

(** The character sets of the pattern, as [re] parses them: in
    [[a-zA-Z0-9_.+-]] the final [-] is a literal, and in [[a-zA-Z0-9-.]] the
    [-] after the range [0-9] is a literal too. *)
Definition alnum_items : list set_item :=
  [Range "a" "z"; Range "A" "Z"; Range "0" "9"]%char.

Definition local_set : list set_item :=
  alnum_items ++ [Single "_"; Single "."; Single "+"; Single "-"]%char.

Definition label_set : list set_item :=
  alnum_items ++ [Single "-"]%char.

Definition rest_set : list set_item :=
  alnum_items ++ [Single "-"; Single "."]%char.

(** [[a-zA-Z0-9_.+-]+@[a-zA-Z0-9-]+\.[a-zA-Z0-9-.]+], the pattern between
    its [^] and [$]. *)
Definition pattern : regex :=
  RCat (RPlus (RSet local_set))
    (RCat (RChr "@")
       (RCat (RPlus (RSet label_set))
          (RCat (RChr ".") (RPlus (RSet rest_set))))).

Definition validate_email (email : string) : bool :=
  if String.eqb email "" || negb (str_in "@" email) then false
  else match_anchored pattern (strip email).

(** [parse_email] returns the tuple
    [(username, domain_full, domain_name, extension)]; unpacking the result
    of [split("@", 1)] into two names raises [ValueError] unless it has
    exactly two fields. *)
Definition parse_email (email : string)
  : option (string * string * string * string) :=
  let email := strip email in
  match split1 "@" email with
  | [username; domain_full] =>
      let domain_parts := split "." domain_full in
      let domain_name :=
        match domain_parts with
        | p :: _ => p
        | [] => domain_full
        end in
      let extension :=
        if (1 <? length domain_parts)%nat then List.last domain_parts "" else "" in
      Some (username, domain_full, domain_name, extension)
  | _ => None
  end.

(** ** The classification tables and the classifier *)

(** The dictionary that [provider_insights] returns has the same three keys
    on every path. *)
Record provider_info : Type := ProviderInfo {
  provider_name : string;
  provider_type : string;
  notes : string
}.

(** [mapping], in declaration order. *)
Definition mapping : list (string * (string * string * string)) :=
  [ ("gmail.com", ("Google Mail", "Free/Consumer", "Popular personal email provider (Gmail)."));
    ("googlemail.com", ("Google Mail", "Free/Consumer", "Alias for Gmail."));
    ("yahoo.com", ("Yahoo Mail", "Free/Consumer", "Popular consumer email provider."));
    ("outlook.com", ("Microsoft Outlook", "Free/Consumer", "Microsoft consumer email service."));
    ("hotmail.com", ("Microsoft Hotmail/Outlook", "Free/Consumer", "Legacy Hotmail (now Outlook)."));
    ("live.com", ("Microsoft Live/Outlook", "Free/Consumer", "Microsoft's Live/Outlook domains."));
    ("protonmail.com", ("Proton Mail", "Privacy-focused", "End-to-end encrypted email service."));
    ("icloud.com", ("Apple iCloud Mail", "Free/Consumer", "Apple's consumer email service."));
    ("zoho.com", ("Zoho Mail", "Business/SMB", "Often used for small-business/custom domains."));
    ("aol.com", ("AOL Mail", "Free/Consumer", "Legacy consumer email provider."));
    ("mail.com", ("mail.com", "Free/Consumer", "Consumer email service with multiple domain choices."));
    ("gmx.com", ("GMX Mail", "Free/Consumer", "European consumer email provider.")) ].

(** The test of the loop body: [domain == key or domain.endswith("." + key)]. *)
Definition key_matches (domain key : string) : bool :=
  String.eqb domain key || endswith domain ("." ++ key).

Definition info_of (val : string * string * string) : provider_info :=
  let '(n, t, o) := val in
  {| provider_name := n; provider_type := t; notes := o |}.

(** The [for key, val in mapping.items()] loop: the value of the first key
    that passes the test, if any. *)
Fixpoint first_match (domain : string)
    (items : list (string * (string * string * string)))
  : option (string * string * string) :=
  match items with
  | [] => None
  | (key, val) :: rest =>
      if key_matches domain key then Some val else first_match domain rest
  end.

Definition edu_entry : provider_info :=
  {| provider_name := "Educational (edu)";
     provider_type := "Institutional";
     notes := "Typically a university/college email." |}.

Definition gov_entry : provider_info :=
  {| provider_name := "Government (gov)";
     provider_type := "Institutional";
     notes := "Government domain." |}.

Definition custom_entry : provider_info :=
  {| provider_name := "Custom / Organization";
     provider_type := "Custom/Business";
     notes := "Could be a company or self-hosted email. Provider-specific features unknown." |}.

Definition provider_insights (domain_full : string) : provider_info :=
  let domain := lower domain_full in
  match first_match domain mapping with
  | Some val => info_of val
  | None =>
      if endswith domain ".edu" then edu_entry
      else if endswith domain ".gov" then gov_entry
      else custom_entry
  end.

Definition personal_keywords : list string :=
  ["gmail"; "yahoo"; "hotmail"; "outlook"; "icloud"; "aol"; "protonmail";
   "gmx"; "mail.com"; "zoho"].

Definition detect_email_type (domain_full : string) : string :=
  let d := lower domain_full in
  if existsb (fun k => str_in k d) personal_keywords then "Personal Email"
  else if endswith_any d [".edu"; ".ac.in"; ".edu.in"] then "Educational / Academic Email"
  else if endswith d ".gov" then "Government Email"
  else "Business / Organizational Email".

Definition TLD_INFO : gmap string string :=
  list_to_map
    [ ("com", "Commercial (global)");
      ("org", "Organization (non-profit)");
      ("net", "Network / ISP");
      ("edu", "Educational institutions");
      ("gov", "Government");
      ("in", "India (country code TLD)");
      ("uk", "United Kingdom (country code TLD)");
      ("us", "United States (country code TLD)");
      ("ca", "Canada (country code TLD)");
      ("au", "Australia (country code TLD)") ].

(** [d.get(k, dflt)] *)
Definition dict_get {V : Type} (d : gmap string V) (k : string) (dflt : V) : V :=
  match d !! k with
  | Some v => v
  | None => dflt
  end.

Definition tld_info (extension : string) : string :=
  if String.eqb extension "" then "No TLD / local"
  else dict_get TLD_INFO (lower extension) "Unknown or custom TLD".

Definition COMMON_FIXES : gmap string string :=
  list_to_map
    [ ("gamil.com", "gmail.com");
      ("gmai.com", "gmail.com");
      ("gmal.com", "gmail.com");
      ("yaho.com", "yahoo.com");
      ("hotnail.com", "hotmail.com");
      ("outlok.com", "outlook.com");
      ("gnail.com", "gmail.com") ].

(** [COMMON_FIXES.get(domain_full.lower(), None)]; [None] is Python's
    [None]. *)
Definition suggest_fix (domain_full : string) : option string :=
  COMMON_FIXES !! lower domain_full.

(** ** MD5, as [hashlib.md5] computes it (RFC 1321) *)

Module MD5.

Local Open Scope Z_scope.

Definition mask32 : Z := 0xffffffff.

Definition w32 (x : Z) : Z := Z.land x mask32.

Definition not32 (x : Z) : Z := Z.lxor x mask32.

Definition rotl32 (x c : Z) : Z :=
  w32 (Z.lor (Z.shiftl x c) (Z.shiftr x (32 - c))).

(** [K[i] = floor(2^32 * |sin(i + 1)|)] *)
Definition K : list Z :=
  [ 0xd76aa478; 0xe8c7b756; 0x242070db; 0xc1bdceee;
    0xf57c0faf; 0x4787c62a; 0xa8304613; 0xfd469501;
    0x698098d8; 0x8b44f7af; 0xffff5bb1; 0x895cd7be;
    0x6b901122; 0xfd987193; 0xa679438e; 0x49b40821;
    0xf61e2562; 0xc040b340; 0x265e5a51; 0xe9b6c7aa;
    0xd62f105d; 0x02441453; 0xd8a1e681; 0xe7d3fbc8;
    0x21e1cde6; 0xc33707d6; 0xf4d50d87; 0x455a14ed;
    0xa9e3e905; 0xfcefa3f8; 0x676f02d9; 0x8d2a4c8a;
    0xfffa3942; 0x8771f681; 0x6d9d6122; 0xfde5380c;
    0xa4beea44; 0x4bdecfa9; 0xf6bb4b60; 0xbebfbc70;
    0x289b7ec6; 0xeaa127fa; 0xd4ef3085; 0x04881d05;
    0xd9d4d039; 0xe6db99e5; 0x1fa27cf8; 0xc4ac5665;
    0xf4292244; 0x432aff97; 0xab9423a7; 0xfc93a039;
    0x655b59c3; 0x8f0ccc92; 0xffeff47d; 0x85845dd1;
    0x6fa87e4f; 0xfe2ce6e0; 0xa3014314; 0x4e0811a1;
    0xf7537e82; 0xbd3af235; 0x2ad7d2bb; 0xeb86d391 ].

(** The per-round left-rotation amounts. *)
Definition shifts : list Z :=
  [ 7; 12; 17; 22; 7; 12; 17; 22; 7; 12; 17; 22; 7; 12; 17; 22;
    5; 9; 14; 20; 5; 9; 14; 20; 5; 9; 14; 20; 5; 9; 14; 20;
    4; 11; 16; 23; 4; 11; 16; 23; 4; 11; 16; 23; 4; 11; 16; 23;
    6; 10; 15; 21; 6; 10; 15; 21; 6; 10; 15; 21; 6; 10; 15; 21 ].

Definition state : Type := Z * Z * Z * Z.

Definition init : state := (0x67452301, 0xefcdab89, 0x98badcfe, 0x10325476).

(** Operation [i] of the 64 applied to one block of sixteen words [M]. *)
Definition step (M : list Z) (st : state) (i : nat) : state :=
  let '(a, b, c, d) := st in
  let iz := Z.of_nat i in
  let '(f, g) :=
    if iz <? 16 then (Z.lor (Z.land b c) (Z.land (not32 b) d), iz)
    else if iz <? 32 then (Z.lor (Z.land d b) (Z.land (not32 d) c), (5 * iz + 1) mod 16)
    else if iz <? 48 then (Z.lxor (Z.lxor b c) d, (3 * iz + 5) mod 16)
    else (Z.lxor c (Z.lor b (not32 d)), (7 * iz) mod 16) in
  let f' := w32 (f + a + List.nth i K 0 + List.nth (Z.to_nat g) M 0) in
  (d, w32 (b + rotl32 f' (List.nth i shifts 0)), b, c).

Definition block (st : state) (M : list Z) : state :=
  let '(a0, b0, c0, d0) := st in
  let '(a, b, c, d) := fold_left (step M) (List.seq 0 64) st in
  (w32 (a0 + a), w32 (b0 + b), w32 (c0 + c), w32 (d0 + d)).

(** The first [n] little-endian 32-bit words of a byte sequence. *)
Fixpoint words (n : nat) (bytes : list Z) : list Z :=
  match n, bytes with
  | S n', b0 :: b1 :: b2 :: b3 :: rest =>
      (b0 + 256 * b1 + 65536 * b2 + 16777216 * b3) :: words n' rest
  | _, _ => []
  end.

(** [n] little-endian bytes of [x]. *)
Fixpoint le_bytes (n : nat) (x : Z) : list Z :=
  match n with
  | O => []
  | S n' => x mod 256 :: le_bytes n' (x / 256)
  end.

(** The message followed by the bit 1, zero bits up to 56 modulo 64
    bytes, and the bit length on 64 bits. *)
Definition pad (msg : list Z) : list Z :=
  let len := Z.of_nat (length msg) in
  msg ++ [128] ++ List.repeat 0 (Z.to_nat ((55 - len) mod 64))
      ++ le_bytes 8 ((8 * len) mod 2 ^ 64).

Fixpoint run (nblocks : nat) (bytes : list Z) (st : state) : state :=
  match nblocks with
  | O => st
  | S n => run n (skipn 64 bytes) (block st (words 16 (firstn 64 bytes)))
  end.

(** The sixteen bytes of the digest. *)
Definition digest (msg : list Z) : list Z :=
  let p := pad msg in
  let '(a, b, c, d) := run (length p / 64)%nat p init in
  le_bytes 4 a ++ le_bytes 4 b ++ le_bytes 4 c ++ le_bytes 4 d.

(** [int(hashlib.md5(msg).hexdigest(), 16)]: the digest read as one
    big-endian number. *)
Definition md5_int (msg : list Z) : Z :=
  fold_left (fun acc b => 256 * acc + b) (digest msg) 0.

End MD5.

Definition fake_creation_year (email : string) : Z :=
  let h := MD5.md5_int (encode email) in
  (2000 + h mod 25)%Z.

(** ** The bulk-analysis handler *)

(** The values stored in a record dictionary. *)
Inductive value : Type :=
| VStr (s : string)
| VInt (n : Z).

(** [len(s)] as a record value. *)
Definition vlen (s : string) : value := VInt (Z.of_nat (String.length s)).

(** The record of an invalid line. *)
Definition error_record (e : string) : gmap string value :=
  list_to_map [("original", VStr e); ("error", VStr "Invalid format")].

(** One pass of the loop body over the line [e]: the record appended to
    [records], or [None] if the body raises. *)
Definition analyze_line (e : string) : option (gmap string value) :=
  let valid := validate_email e in
  if valid then
    match parse_email e with
    | Some (u, d, n, x) =>
        let prov := provider_insights d in
        let etype := detect_email_type d in
        let rec : gmap string value :=
          list_to_map
            [ ("original", VStr e);
              ("username", VStr u);
              ("domain", VStr d);
              ("extension", VStr x);
              ("username_len", vlen u);
              ("domain_len", vlen d);
              ("extension_len", vlen x);
              ("provider", VStr (provider_name prov));
              ("type", VStr etype);
              ("tld_info", VStr (tld_info x));
              ("creation_year_est", VInt (fake_creation_year e)) ] in
        let fix' := suggest_fix d in
        let shown :=
          match fix' with
          | Some f => if String.eqb f "" then "" else u ++ "@" ++ f
          | None => ""
          end in
        Some (<["suggest_fix" := VStr shown]> rec)
    | None => None
    end
  else Some (error_record e).

(** The [for e in lines] loop, threading the list [records]. *)
Fixpoint analyze_lines (lines : list string) (records : list (gmap string value))
  : option (list (gmap string value)) :=
  match lines with
  | [] => Some records
  | e :: rest =>
      match analyze_line e with
      | Some rec => analyze_lines rest (records ++ [rec])%list
      | None => None
      end
  end.

(** [key in r] *)
Definition has_key (key : string) (r : gmap string value) : bool :=
  match r !! key with
  | Some _ => true
  | None => false
  end.

(** [df[key]] for [df = pd.DataFrame(records)]: the columns of the frame are
    the keys that occur in some record, and the cell of a record without the
    key is missing (NaN); a key that occurs in no record raises [KeyError]. *)
Definition df_column (records : list (gmap string value)) (key : string)
  : option (list (option value)) :=
  if existsb (has_key key) records
  then Some (map (fun r => r !! key) records)
  else None.

(** [pd.isna] on one cell. *)
Definition isna (cell : option value) : bool :=
  match cell with
  | Some _ => false
  | None => true
  end.

(** The [try] ... [except] that computes [valid_count]. *)
Definition valid_count (records : list (gmap string value)) : nat :=
  match df_column records "error" with
  | Some col => length (List.filter isna col)
  | None => length (List.filter (fun r => negb (has_key "error" r)) records)
  end.

(** [[l.strip() for l in bulk_input.splitlines() if l.strip()]] *)
Definition bulk_lines (bulk_input : string) : list string :=
  map strip
    (List.filter (fun l => negb (String.eqb (strip l) "")) (splitlines bulk_input)).

(** What the handler shows: the warning for an empty input, or the records
    with the two numbers of the summary line
    ["Processed {len(records)} rows — {valid_count} valid email(s)."]. *)
Inductive bulk_outcome : Type :=
| Warning
| Report (records : list (gmap string value)) (processed valid : nat).

(** The handler from the list of lines on. *)
Definition analyze_bulk_lines (lines : list string) : option bulk_outcome :=
  match lines with
  | [] => Some Warning
  | _ =>
      match analyze_lines lines [] with
      | Some records => Some (Report records (length records) (valid_count records))
      | None => None
      end
  end.

(** The handler run when [analyze_bulk_btn] is set. *)
Definition analyze_bulk (bulk_input : string) : option bulk_outcome :=
  analyze_bulk_lines (bulk_lines bulk_input).

(** ** The validator's contract as the specification words it *)

(** [all_chars p s]: every character of [s] passes [p]. *)
Fixpoint all_chars (p : ascii -> bool) (s : string) : bool :=
  match s with
  | EmptyString => true
  | String c s' => p c && all_chars p s'
  end.

Definition is_letter (c : ascii) : bool := between 97 122 c || between 65 90 c.

Definition is_digit (c : ascii) : bool := between 48 57 c.

(** "letters, digits, and [. _ + -]" *)
Definition local_char (c : ascii) : bool :=
  is_letter c || is_digit c ||
  Ascii.eqb c "." || Ascii.eqb c "_" || Ascii.eqb c "+" || Ascii.eqb c "-".

(** "letters, digits, and hyphens" *)
Definition label_char (c : ascii) : bool :=
  is_letter c || is_digit c || Ascii.eqb c "-".

Definition spec_label (l : string) : bool :=
  negb (String.eqb l "") && all_chars label_char l.

(** "matches the pattern local-part@domain where local-part consists of
    letters, digits, and [. _ + -], and domain is one or more dot-separated
    labels of letters, digits, and hyphens".  A local part has no [@], so it
    is the part before the first one. *)
Definition spec_pattern (t : string) : bool :=
  match split1 "@" t with
  | [local; domain] =>
      negb (String.eqb local "") && all_chars local_char local
      && forallb spec_label (split "." domain)
  | _ => false
  end.

(** The validator of the specification: the trimmed input matches. *)
Definition spec_validate (email : string) : bool := spec_pattern (strip email).

(** ** The shape the code's pattern accepts *)

(** Letters, digits, hyphens and dots: the characters after the first
    dot of the domain. *)
Definition tail_char (c : ascii) : bool := label_char c || Ascii.eqb c ".".

(** A non-empty local part, [@], a non-empty first label, a dot, and a
    non-empty tail. *)
Definition accepted_shape (t : string) : Prop :=
  exists local first tail,
    t = local ++ "@" ++ first ++ "." ++ tail /\
    local <> "" /\ all_chars local_char local = true /\
    first <> "" /\ all_chars label_char first = true /\
    tail <> "" /\ all_chars tail_char tail = true.

(** ** Text with characters above U+00FF *)

Module UStr.

(** The report holds characters above U+00FF (a dash, an arrow, an emoji),
    so its text is a list of code points; a [string] embeds in it
    character by character. *)
Fixpoint of_string (s : string) : list N :=
  match s with
  | EmptyString => []
  | String c s' => ord c :: of_string s'
  end.

(** The code point of ["\n"]. *)
Definition NL : N := 10.

(** [text.split(sep)] for a one-character separator. *)
Fixpoint split (sep : N) (text : list N) : list (list N) :=
  match text with
  | [] => [[]]
  | c :: text' =>
      if (c =? sep)%N then [] :: split sep text'
      else match split sep text' with
           | h :: t => (c :: h) :: t
           | [] => [[c]]
           end
  end.

(** [sep.join(lines)] for a one-character separator. *)
Fixpoint join (sep : N) (lines : list (list N)) : list N :=
  match lines with
  | [] => []
  | [l] => l
  | l :: rest => (l ++ sep :: join sep rest)%list
  end.

(** [str(z)] for an integer: its decimal digits, after a minus sign when it
    is negative. *)
Definition str_of_int (z : Z) : list N :=
  of_string (NilZero.string_of_int (Z.to_int z)).

End UStr.

(** ** The report *)

(** The dictionary that [provider_insights] returns, with its three
    keys. *)
Definition info_dict (info : provider_info) : gmap string string :=
  list_to_map
    [ ("provider_name", provider_name info);
      ("provider_type", provider_type info);
      ("notes", notes info) ].

(** The list [lines] that [make_report] builds, the three lengths and the
    three provider texts being looked up already. *)
Definition report_lines
    (original_email username domain_full domain_name extension : string)
    (len_username len_domain_full len_extension : Z)
    (p_name p_type p_notes : string)
    (email_type tld_description timestamp : string)
  : list (list N) :=
  let u := UStr.of_string in
  [ u "Email Slicer with Insights " ++ [8212%N] ++ u " Detailed Report";
    u "Generated: " ++ u timestamp;
    List.repeat 45%N 48;
    u "Original email: " ++ u original_email;
    u "";
    u "Extracted components:";
    u "  Username       : " ++ u username;
    u "  Domain (full)  : " ++ u domain_full;
    u "  Domain (label) : " ++ u domain_name;
    u "  Extension      : " ++ u extension;
    u "";
    u "Character counts:";
    u "  Username length: " ++ UStr.str_of_int len_username;
    u "  Domain length  : " ++ UStr.str_of_int len_domain_full;
    u "  Extension len  : " ++ UStr.str_of_int len_extension;
    u "";
    u "Inferred provider information:";
    u "  Provider name : " ++ u p_name;
    u "  Provider type : " ++ u p_type;
    u "  Notes         : " ++ u p_notes;
    u "";
    u "Email type classification: " ++ u email_type;
    u "TLD info: ." ++ u extension ++ u " " ++ [8594%N] ++ u " " ++ u tld_description;
    u "";
    u "Notes & caveats:";
    u "  - Extension parsing treats the last domain label as the extension (e.g., 'uk' in 'example.co.uk').";
    u "  - For multi-level TLDs (co.uk, ac.in etc.) or specialized hosting, the provider name may be 'Custom / Organization'.";
    u "  - This report does not perform live DNS/MX lookups or verify mailbox existence.";
    u "";
    u "Thank you for using Email Slicer with Insights! " ++ [128640%N] ]%list.

(** [make_report]; [lengths] and [provider_info] are dictionaries, and a
    key missing from either raises [KeyError]. *)
Definition make_report
    (original_email username domain_full domain_name extension : string)
    (lengths : gmap string Z) (provider_info : gmap string string)
    (email_type tld_description timestamp : string)
  : option (list N) :=
  match lengths !! "username", lengths !! "domain_full", lengths !! "extension" with
  | Some len_username, Some len_domain_full, Some len_extension =>
      match provider_info !! "provider_name", provider_info !! "provider_type",
            provider_info !! "notes" with
      | Some p_name, Some p_type, Some p_notes =>
          Some (UStr.join UStr.NL
                  (report_lines original_email username domain_full domain_name
                     extension len_username len_domain_full len_extension
                     p_name p_type p_notes
                     email_type tld_description timestamp))
      | _, _, _ => None
      end
  | _, _, _ => None
  end.

(** ** The PDF canvas *)

(** The calls that [make_pdf_bytes] makes on the reportlab canvas; the bytes
    it returns are reportlab's rendering of them. *)
Inductive canvas_call : Type :=
| DrawString (x y : Z) (text : list N)
| ShowPage
| Save.

(** [reportlab.lib.pagesizes.letter], in points.  The library holds the two
    numbers as floats; they and the heights computed from them are small
    integers, on which float arithmetic is exact. *)
Definition letter : Z * Z := (612, 792)%Z.

(** The [for line in report_text.split("\n")] loop, from the height [y]. *)
Fixpoint draw_lines (height left_margin : Z) (lines : list (list N)) (y : Z)
  : list canvas_call :=
  match lines with
  | [] => []
  | line :: rest =>
      let y' := (y - 12)%Z in
      DrawString left_margin y line ::
        (if (y' <? 40)%Z
         then ShowPage :: draw_lines height left_margin rest (height - 40)%Z
         else draw_lines height left_margin rest y')
  end.

(** [make_pdf_bytes]: [None] is the [RuntimeError] raised when reportlab is
    not available. *)
Definition make_pdf_bytes (REPORTLAB_AVAILABLE : bool) (report_text : list N)
  : option (list canvas_call) :=
  if negb REPORTLAB_AVAILABLE then None
  else
    let '(width, height) := letter in
    let left_margin := 40%Z in
    let y := (height - 40)%Z in
    Some (draw_lines height left_margin (UStr.split UStr.NL report_text) y
            ++ [Save])%list.

(** ** The single-email handler *)

(** [replace_from old new skip s]: [s.replace(old, new)] for a non-empty
    [old], the first [skip] characters of [s] being the rest of an
    occurrence already replaced. *)
Fixpoint replace_from (old new : string) (skip : nat) (s : string) : string :=
  match s with
  | EmptyString => EmptyString
  | String c s' =>
      match skip with
      | S k => replace_from old new k s'
      | O =>
          if startswith s old
          then new ++ replace_from old new (String.length old - 1) s'
          else String c (replace_from old new 0 s')
      end
  end.

(** [s.replace(old, new)], for a non-empty [old]. *)
Definition replace (old new s : string) : string := replace_from old new 0 s.

(** The name of the TXT download. *)
Definition safe_fname (username timestamp : string) : string :=
  "email_slicer_report_" ++ username ++ "_"
    ++ replace ":" "" (replace " " "_" timestamp) ++ ".txt".

(** What the handler computes for a validated address. *)
Record analysis : Type := Analysis {
  a_username : string;
  a_domain_full : string;
  a_domain_name : string;
  a_extension : string;
  a_provider : provider_info;
  a_email_type : string;
  a_tld_description : string;
  a_lengths : gmap string Z;
  a_fix : option string;
  a_creation_year : Z;
  a_report_text : list N;
  a_safe_fname : string;
  a_pdf : option (list canvas_call)
}.

Inductive single_outcome : Type :=
| EmptyInput                 (* "Please enter an email address to proceed." *)
| InvalidFormat              (* "That doesn't look like a valid email format." *)
| Analysed (a : analysis).

(** [len(s)] *)
Definition len (s : string) : Z := Z.of_nat (String.length s).

(** The handler run when [analyze_btn] is set; [timestamp] is the text of
    [datetime.now().strftime("%Y-%m-%d %H:%M:%S")].  A failure of
    [make_pdf_bytes] is caught by the handler, so that [a_pdf] is [None]
    both then and when reportlab is not available. *)
Definition analyze_single (REPORTLAB_AVAILABLE : bool)
    (email_input timestamp : string) : option single_outcome :=
  let email := strip email_input in
  if String.eqb email "" then Some EmptyInput
  else if negb (validate_email email) then Some InvalidFormat
  else
    match parse_email email with
    | Some (username, domain_full, domain_name, extension) =>
        let provider := provider_insights domain_full in
        let email_type := detect_email_type domain_full in
        let tld_description := tld_info extension in
        let lengths : gmap string Z :=
          list_to_map [ ("username", len username);
                        ("domain_full", len domain_full);
                        ("extension", len extension) ] in
        let fix' := suggest_fix domain_full in
        match make_report email username domain_full domain_name extension
                lengths (info_dict provider) email_type tld_description
                timestamp with
        | Some report_text =>
            let pdf :=
              if REPORTLAB_AVAILABLE
              then make_pdf_bytes REPORTLAB_AVAILABLE report_text
              else None in
            Some (Analysed
                    {| a_username := username;
                       a_domain_full := domain_full;
                       a_domain_name := domain_name;
                       a_extension := extension;
                       a_provider := provider;
                       a_email_type := email_type;
                       a_tld_description := tld_description;
                       a_lengths := lengths;
                       a_fix := fix';
                       a_creation_year := fake_creation_year email;
                       a_report_text := report_text;
                       a_safe_fname := safe_fname username timestamp;
                       a_pdf := pdf |})
        | None => None
        end
    | None => None
    end.

(** The draws of a list of canvas calls, each with the number of the page
    it lands on, its height and its text; [page] is the number of the
    current page. *)
Fixpoint placed (page : Z) (calls : list canvas_call)
  : list (Z * Z * list N) :=
  match calls with
  | [] => []
  | DrawString _ y text :: rest => (page, y, text) :: placed page rest
  | ShowPage :: rest => placed (page + 1)%Z rest
  | Save :: rest => placed page rest
  end.

(** The number of [showPage] calls in a list of canvas calls. *)
Fixpoint show_pages (calls : list canvas_call) : nat :=
  match calls with
  | [] => 0
  | ShowPage :: rest => S (show_pages rest)
  | _ :: rest => show_pages rest
  end.

(** [text] holds no newline. *)
Definition nl_free (text : list N) : bool :=
  forallb (fun c => negb (c =? UStr.NL)%N) text.

(** The characters of a ["%Y-%m-%d %H:%M:%S"] timestamp. *)
Definition timestamp_char (c : ascii) : bool :=
  is_digit c || Ascii.eqb c "-" || Ascii.eqb c " " || Ascii.eqb c ":".

(** ** Vocabulary of the statements *)

(** [suf] closes [d]. *)
Definition ends_with (d suf : string) : Prop := exists pre, d = pre ++ suf.

(** One of the provider keywords occurs in [d]. *)
Definition has_keyword (d : string) : Prop :=
  exists k pre post, In k personal_keywords /\ d = pre ++ k ++ post.

(** [d] is the key, or ends with a dot and the key. *)
Definition key_hit (d key : string) : Prop :=
  d = key \/ ends_with d ("." ++ key).

(** The four results of [detect_email_type]. *)
Definition categories : list string :=
  [ "Personal Email"; "Educational / Academic Email"; "Government Email";
    "Business / Organizational Email" ].

(** The record of the line ["a@gmail.com"]. *)
Definition gmail_record : gmap string value :=
  list_to_map
    [ ("original", VStr "a@gmail.com");
      ("username", VStr "a");
      ("domain", VStr "gmail.com");
      ("extension", VStr "com");
      ("username_len", VInt 1);
      ("domain_len", VInt 9);
      ("extension_len", VInt 3);
      ("provider", VStr "Google Mail");
      ("type", VStr "Personal Email");
      ("tld_info", VStr "Commercial (global)");
      ("creation_year_est", VInt 2022);
      ("suggest_fix", VStr "") ].

(** The keys of the record of a valid line. *)
Definition valid_record_keys : list string :=
  [ "original"; "username"; "domain"; "extension"; "username_len";
    "domain_len"; "extension_len"; "provider"; "type"; "tld_info";
    "creation_year_est"; "suggest_fix" ].

(** The keys of the record of an invalid line. *)
Definition error_record_keys : list string := ["original"; "error"].

(** * Properties *)

(** ** Strings *)

Lemma sapp_nil_r (s : string) : s ++ "" = s.
Proof. induction s as [|c s IH]; simpl; [reflexivity | now rewrite IH]. Qed.

Lemma sapp_assoc (s t u : string) : (s ++ t) ++ u = s ++ t ++ u.
Proof. induction s as [|c s IH]; simpl; [reflexivity | now rewrite IH]. Qed.

Lemma sapp_eq_nil (s t : string) : s ++ t = "" -> s = "" /\ t = "".
Proof. destruct s; simpl; [auto | discriminate]. Qed.

(** A string with a last character is not empty. *)
Lemma snoc_not_nil (s : string) (c : ascii) : s ++ String c "" <> "".
Proof. destruct s; discriminate. Qed.

Lemma all_chars_app (p : ascii -> bool) (s t : string) :
  all_chars p (s ++ t) = all_chars p s && all_chars p t.
Proof.
  induction s as [|c s IH]; simpl; [reflexivity |].
  now rewrite IH, andb_assoc.
Qed.

Lemma all_chars_ext (p q : ascii -> bool) (s : string) :
  (forall c, p c = q c) -> all_chars p s = all_chars q s.
Proof. intros E. induction s as [|c s IH]; simpl; [reflexivity | now rewrite E, IH]. Qed.

Lemma startswith_spec (s p : string) :
  startswith s p = true <-> exists post, s = p ++ post.
Proof.
  revert s. induction p as [|a p IH]; intros s; simpl.
  - split; eauto.
  - destruct s as [|b s].
    + split; [discriminate | intros [post H]; discriminate].
    + rewrite andb_true_iff, Ascii.eqb_eq, IH. split.
      * intros [-> [post ->]]. eauto.
      * intros [post H]. injection H as -> ->. eauto.
Qed.

(** [sub in s] holds exactly when [s] splits around an occurrence of
    [sub]. *)
Lemma str_in_spec (sub s : string) :
  str_in sub s = true <-> exists pre post, s = pre ++ sub ++ post.
Proof.
  induction s as [|c s IH].
  - simpl. rewrite orb_false_r, startswith_spec. split.
    + intros [post H]. exists "", post. exact H.
    + intros [pre [post H]]. symmetry in H.
      apply sapp_eq_nil in H as [-> H]. eauto.
  - cbn [str_in]. rewrite orb_true_iff, startswith_spec, IH. split.
    + intros [[post H] | [pre [post H]]].
      * exists "", post. exact H.
      * exists (String c pre), post. simpl. now rewrite H.
    + intros [pre [post H]]. destruct pre as [|a pre]; simpl in H.
      * left. eauto.
      * right. injection H as _ ->. eauto.
Qed.

(** [s.endswith(suf)] holds exactly when [suf] closes [s]. *)
Lemma endswith_spec (s suf : string) :
  endswith s suf = true <-> exists pre, s = pre ++ suf.
Proof.
  induction s as [|c s IH].
  - cbn [endswith]. rewrite orb_false_r, String.eqb_eq. split.
    + intros <-. now exists "".
    + intros [pre H]. symmetry in H. now apply sapp_eq_nil in H.
  - cbn [endswith]. rewrite orb_true_iff, String.eqb_eq, IH. split.
    + intros [<- | [pre ->]]; [now exists "" | now exists (String c pre)].
    + intros [pre H]. destruct pre as [|a pre]; simpl in H.
      * now left.
      * right. injection H as _ ->. eauto.
Qed.

Lemma endswith_any_spec (s : string) (sufs : list string) :
  endswith_any s sufs = true <-> exists suf pre, In suf sufs /\ s = pre ++ suf.
Proof.
  unfold endswith_any. rewrite existsb_exists. split.
  - intros [suf [Hin H]]. apply endswith_spec in H as [pre H]. eauto.
  - intros [suf [pre [Hin H]]]. exists suf. split; [assumption |].
    apply endswith_spec. eauto.
Qed.

(** ** The matcher decides the language *)

Lemma lang_inv (r : regex) (s : string) :
  lang r s ->
  match r with
  | RNone => False
  | REps => s = ""
  | RChr c => s = String c ""
  | RSet items => exists c, s = String c "" /\ set_has items c = true
  | RCat r1 r2 => exists s1 s2, s = s1 ++ s2 /\ lang r1 s1 /\ lang r2 s2
  | RAlt r1 r2 => lang r1 s \/ lang r2 s
  | RStar r1 =>
      s = "" \/ exists s1 s2, s = s1 ++ s2 /\ lang r1 s1 /\ lang (RStar r1) s2
  end.
Proof. destruct 1; eauto 10. Qed.

Lemma nullable_lang (r : regex) : nullable r = true <-> lang r "".
Proof.
  induction r as [| | c | items | r1 IH1 r2 IH2 | r1 IH1 r2 IH2 | r IH]; simpl.
  - split; [discriminate | intros H; destruct (lang_inv _ _ H)].
  - split; [constructor | reflexivity].
  - split; [discriminate | intros H; apply lang_inv in H; discriminate].
  - split; [discriminate |].
    intros H. apply lang_inv in H as [c [H _]]. discriminate.
  - rewrite andb_true_iff, IH1, IH2. split.
    + intros [H1 H2]. exact (LCat _ _ "" "" H1 H2).
    + intros H. apply lang_inv in H as [s1 [s2 [E [H1 H2]]]].
      symmetry in E. apply sapp_eq_nil in E as [-> ->]. auto.
  - rewrite orb_true_iff, IH1, IH2. split.
    + intros [H | H]; [now apply LAltL | now apply LAltR].
    + intros H. now apply lang_inv in H.
  - split; [constructor | reflexivity].
Qed.

(** A non-empty word of [r*] starts with a non-empty word of [r]. *)
Lemma lang_star_cons (r : regex) (c : ascii) (s : string) :
  lang (RStar r) (String c s) ->
  exists s1 s2, s = s1 ++ s2 /\ lang r (String c s1) /\ lang (RStar r) s2.
Proof.
  intros H.
  remember (RStar r) as r' eqn:Er. remember (String c s) as t eqn:Et.
  revert c s Et.
  induction H as [| | | | | | |r0 s1 s2 H1 _ H2 IH2]; intros c' s' Et;
    try discriminate.
  injection Er as ->.
  destruct s1 as [|a s1]; simpl in Et.
  - now apply IH2.
  - injection Et as -> <-. eauto.
Qed.

Lemma deriv_lang (c : ascii) (r : regex) (s : string) :
  lang (deriv c r) s <-> lang r (String c s).
Proof.
  revert s.
  induction r as [| | a | items | r1 IH1 r2 IH2 | r1 IH1 r2 IH2 | r IH];
    intros s; simpl.
  - split; intros H; destruct (lang_inv _ _ H).
  - split; intros H; apply lang_inv in H; [destruct H | discriminate].
  - destruct (Ascii.eqb_spec a c) as [-> | Hne]; split; intros H.
    + apply lang_inv in H as ->. constructor.
    + apply lang_inv in H. injection H as ->. constructor.
    + destruct (lang_inv _ _ H).
    + apply lang_inv in H. injection H as -> _. now destruct Hne.
  - destruct (set_has items c) eqn:Hc; split; intros H.
    + apply lang_inv in H as ->. now constructor.
    + apply lang_inv in H as [c' [H _]]. injection H as _ ->. constructor.
    + destruct (lang_inv _ _ H).
    + apply lang_inv in H as [c' [H Hc']]. injection H as <- _. congruence.
  - assert (Hcat : lang (RCat (deriv c r1) r2) s ->
                   lang (RCat r1 r2) (String c s)).
    { intros H. apply lang_inv in H as [s1 [s2 [-> [H1 H2]]]].
      apply IH1 in H1. exact (LCat _ _ _ _ H1 H2). }
    assert (Hinv : lang (RCat r1 r2) (String c s) ->
                   lang (RCat (deriv c r1) r2) s \/
                   (lang r1 "" /\ lang (deriv c r2) s)).
    { intros H. apply lang_inv in H as [s1 [s2 [E [H1 H2]]]].
      destruct s1 as [|a s1]; simpl in E.
      - right. subst s2. split; [assumption | now apply IH2].
      - left. injection E as <- ->. apply LCat; [now apply IH1 | assumption]. }
    destruct (nullable r1) eqn:Hn; split; intros H.
    + apply lang_inv in H as [H | H]; [auto |].
      apply IH2 in H. apply nullable_lang in Hn.
      exact (LCat _ _ "" _ Hn H).
    + apply Hinv in H as [H | [_ H]]; [now apply LAltL | now apply LAltR].
    + auto.
    + apply Hinv in H as [H | [H _]]; [assumption |].
      apply nullable_lang in H. congruence.
  - split; intros H.
    + apply lang_inv in H as [H | H]; [apply LAltL, IH1 | apply LAltR, IH2];
        assumption.
    + apply lang_inv in H as [H | H]; [apply LAltL, IH1 | apply LAltR, IH2];
        assumption.
  - split; intros H.
    + apply lang_inv in H as [s1 [s2 [-> [H1 H2]]]].
      apply IH in H1. exact (LStarApp _ _ _ H1 H2).
    + apply lang_star_cons in H as [s1 [s2 [-> [H1 H2]]]].
      apply LCat; [now apply IH | assumption].
Qed.

Theorem fullmatch_lang (r : regex) (s : string) :
  fullmatch r s = true <-> lang r s.
Proof.
  revert r. induction s as [|c s IH]; intros r; simpl.
  - apply nullable_lang.
  - rewrite IH. apply deriv_lang.
Qed.

(** The words of [[items]*] and [[items]+]. *)
Lemma lang_star_set (items : list set_item) (s : string) :
  lang (RStar (RSet items)) s <-> all_chars (set_has items) s = true.
Proof.
  split.
  - intros H. remember (RStar (RSet items)) as r eqn:Er.
    induction H as [| | | | | | |r0 s1 s2 H1 _ H2 IH2]; try discriminate.
    + reflexivity.
    + injection Er as ->.
      apply lang_inv in H1 as [c [-> Hc]]. simpl. now rewrite Hc, IH2.
  - induction s as [|c s IH]; simpl; intros H.
    + constructor.
    + apply andb_true_iff in H as [Hc Hs].
      apply (LStarApp _ (String c "") s); [now constructor | auto].
Qed.

Lemma lang_plus_set (items : list set_item) (s : string) :
  lang (RPlus (RSet items)) s <->
  s <> "" /\ all_chars (set_has items) s = true.
Proof.
  unfold RPlus. split.
  - intros H. apply lang_inv in H as [s1 [s2 [-> [H1 H2]]]].
    apply lang_inv in H1 as [c [-> Hc]]. apply lang_star_set in H2.
    simpl. now rewrite Hc, H2.
  - intros [Hne H]. destruct s as [|c s]; [congruence |].
    simpl in H. apply andb_true_iff in H as [Hc Hs].
    apply (LCat _ _ (String c "") s); [now constructor | now apply lang_star_set].
Qed.

(** ** Trimming *)

Lemma lstrip_spec (s : string) :
  exists pre, s = pre ++ lstrip s /\ all_chars isspace pre = true.
Proof.
  induction s as [|c s [pre [E Hpre]]]; simpl.
  - now exists "".
  - destruct (isspace c) eqn:Hc.
    + exists (String c pre). simpl. now rewrite <- E, Hc, Hpre.
    + now exists "".
Qed.

Lemma rstrip_spec (s : string) :
  exists post, s = rstrip s ++ post /\ all_chars isspace post = true.
Proof.
  induction s as [|c s [post [E Hpost]]]; simpl.
  - now exists "".
  - destruct (rstrip s) as [|b r] eqn:Hr.
    + simpl in E. subst post. destruct (isspace c) eqn:Hc.
      * exists (String c s). simpl. now rewrite Hc, Hpost.
      * exists s. now simpl.
    + exists post. simpl in E |- *. now rewrite <- E.
Qed.

(** What [rstrip] leaves does not end with white space. *)
Lemma rstrip_last (s t : string) (c : ascii) :
  rstrip s = t ++ String c "" -> isspace c = false.
Proof.
  revert t. induction s as [|a s IH]; intros t; simpl.
  - intros H. symmetry in H. now apply snoc_not_nil in H.
  - destruct (rstrip s) as [|b r] eqn:Hr.
    + destruct (isspace a) eqn:Ha; intros H.
      * symmetry in H. now apply snoc_not_nil in H.
      * destruct t as [|x t]; simpl in H.
        -- now injection H as <-.
        -- injection H as _ H. symmetry in H. now apply snoc_not_nil in H.
    + intros H. destruct t as [|x t]; simpl in H.
      * discriminate.
      * injection H as _ H. now apply (IH t).
Qed.

(** [strip] returns a piece of its argument between two runs of white
    space, and the piece does not end with white space. *)
Lemma strip_spec (s : string) :
  exists pre post,
    s = pre ++ strip s ++ post /\
    all_chars isspace pre = true /\ all_chars isspace post = true.
Proof.
  destruct (lstrip_spec s) as [pre [E1 H1]].
  destruct (rstrip_spec (lstrip s)) as [post [E2 H2]].
  exists pre, post. unfold strip. now rewrite <- E2.
Qed.

Lemma strip_last (s t : string) (c : ascii) :
  strip s = t ++ String c "" -> isspace c = false.
Proof. apply rstrip_last. Qed.

Lemma str_in_strip (sub s : string) :
  str_in sub (strip s) = true -> str_in sub s = true.
Proof.
  rewrite !str_in_spec. intros [a [b E]].
  destruct (strip_spec s) as [pre [post [Es _]]].
  exists (pre ++ a), (b ++ post).
  rewrite Es at 1. rewrite E. now rewrite !sapp_assoc.
Qed.

(** ** The validator *)

Lemma local_set_chars (c : ascii) : set_has local_set c = local_char c.
Proof. destruct c as [[] [] [] [] [] [] [] []]; reflexivity. Qed.

Lemma label_set_chars (c : ascii) : set_has label_set c = label_char c.
Proof. destruct c as [[] [] [] [] [] [] [] []]; reflexivity. Qed.

Lemma rest_set_chars (c : ascii) : set_has rest_set c = tail_char c.
Proof. destruct c as [[] [] [] [] [] [] [] []]; reflexivity. Qed.

(** The language of the pattern, spelled out. *)
Lemma lang_pattern (t : string) : lang pattern t <-> accepted_shape t.
Proof.
  unfold pattern, accepted_shape. split.
  - intros H.
    apply lang_inv in H as [l [t1 [-> [Hl H]]]].
    apply lang_inv in H as [at_ [t2 [-> [Hat H]]]].
    apply lang_inv in H as [f [t3 [-> [Hf H]]]].
    apply lang_inv in H as [dot [r [-> [Hdot Hr]]]].
    apply lang_inv in Hat as ->. apply lang_inv in Hdot as ->.
    apply lang_plus_set in Hl as [Hl1 Hl2].
    apply lang_plus_set in Hf as [Hf1 Hf2].
    apply lang_plus_set in Hr as [Hr1 Hr2].
    exists l, f, r.
    rewrite <- (all_chars_ext _ _ l local_set_chars).
    rewrite <- (all_chars_ext _ _ f label_set_chars).
    rewrite <- (all_chars_ext _ _ r rest_set_chars).
    auto 10.
  - intros [l [f [r [-> [Hl1 [Hl2 [Hf1 [Hf2 [Hr1 Hr2]]]]]]]]].
    rewrite <- (all_chars_ext _ _ l local_set_chars) in Hl2.
    rewrite <- (all_chars_ext _ _ f label_set_chars) in Hf2.
    rewrite <- (all_chars_ext _ _ r rest_set_chars) in Hr2.
    apply LCat; [now apply lang_plus_set |].
    apply LCat; [constructor |].
    apply LCat; [now apply lang_plus_set |].
    apply LCat; [constructor | now apply lang_plus_set].
Qed.

(** [re.match] with the pattern: the subject, or the subject less a final
    newline, has the accepted shape. *)
Lemma match_anchored_pattern (t : string) :
  match_anchored pattern t = true <->
  accepted_shape t \/ exists t1, t = t1 ++ String "010" "" /\ accepted_shape t1.
Proof.
  unfold match_anchored. rewrite fullmatch_lang. split.
  - intros H. apply lang_inv in H as [t1 [t2 [-> [H1 H2]]]].
    apply lang_pattern in H1.
    apply lang_inv in H2 as [H2 | H2]; apply lang_inv in H2 as ->.
    + left. now rewrite sapp_nil_r.
    + right. eauto.
  - intros [H | [t1 [-> H]]]; apply lang_pattern in H.
    + rewrite <- (sapp_nil_r t). apply LCat; [assumption |].
      apply LAltL. constructor.
    + apply LCat; [assumption |]. apply LAltR. constructor.
Qed.

Lemma accepted_shape_has_at (t : string) :
  accepted_shape t -> str_in "@" t = true.
Proof.
  intros [l [f [r [-> _]]]]. apply str_in_spec. now exists l, (f ++ "." ++ r).
Qed.

Lemma validate_email_unfold (s : string) :
  validate_email s = true <->
  s <> "" /\ str_in "@" s = true /\ match_anchored pattern (strip s) = true.
Proof.
  unfold validate_email.
  destruct (String.eqb_spec s "") as [-> | Hne].
  - simpl. split; [discriminate | now intros [H _]].
  - destruct (str_in "@" s); simpl.
    + tauto.
    + split; [discriminate | now intros [_ [H _]]].
Qed.

Lemma validate_email_shape (s : string) :
  validate_email s = true <-> accepted_shape (strip s).
Proof.
  rewrite validate_email_unfold, match_anchored_pattern. split.
  - intros [_ [_ [H | [t1 [E _]]]]]; [assumption |].
    apply strip_last in E. discriminate.
  - intros H. split; [| split; [| now left]].
    + intros ->. destruct H as [l [f [r [E [Hl _]]]]].
      cbn in E. destruct l; [congruence | discriminate].
    + apply str_in_strip. now apply accepted_shape_has_at.
Qed.

(** ** Splitting on a separator *)

Section Split.

Variable sep : ascii.

Lemma nosep_cons (a : ascii) (s : string) :
  str_in (String sep "") (String a s) = false <->
  a <> sep /\ str_in (String sep "") s = false.
Proof.
  cbn [str_in startswith]. rewrite andb_true_r, orb_false_iff.
  destruct (Ascii.eqb_spec sep a) as [-> | Hne]; split.
  - now intros [H _].
  - now intros [H _].
  - intros [_ H]. auto.
  - intros [_ H]. auto.
Qed.

Lemma nosep_all_chars (p : ascii -> bool) (s : string) :
  p sep = false -> all_chars p s = true -> str_in (String sep "") s = false.
Proof.
  intros Hp. induction s as [|a s IH]; [reflexivity |].
  simpl all_chars. rewrite andb_true_iff, nosep_cons. intros [Ha Hs].
  split; [congruence | auto].
Qed.

(** [split(sep, 1)] cuts at the first separator. *)
Lemma split1_at (u d : string) :
  str_in (String sep "") u = false ->
  split1 sep (u ++ String sep d) = [u; d].
Proof.
  induction u as [|a u IH]; simpl append; cbn [split1].
  - now rewrite Ascii.eqb_refl.
  - rewrite nosep_cons. intros [Ha Hu].
    destruct (Ascii.eqb_spec a sep); [congruence |].
    now rewrite IH.
Qed.

Lemma split1_none (s : string) :
  str_in (String sep "") s = false -> split1 sep s = [s].
Proof.
  induction s as [|a s IH]; [reflexivity |].
  rewrite nosep_cons. intros [Ha Hs]. cbn [split1].
  destruct (Ascii.eqb_spec a sep); [congruence |].
  now rewrite IH.
Qed.

Lemma split1_cases (s : string) :
  (str_in (String sep "") s = false /\ split1 sep s = [s]) \/
  (exists u d, s = u ++ String sep d /\ str_in (String sep "") u = false /\
               split1 sep s = [u; d]).
Proof.
  destruct (str_in (String sep "") s) eqn:Hin.
  - right. apply str_in_spec in Hin as [pre [post E]]. simpl in E.
    revert pre post E.
    induction s as [|a s IH]; intros pre post E.
    + destruct pre; discriminate.
    + destruct (Ascii.eqb_spec a sep) as [-> | Hne].
      * exists "", s. cbn [split1]. now rewrite Ascii.eqb_refl.
      * destruct pre as [|b pre]; simpl in E; injection E as -> E;
          [congruence |].
        destruct (IH _ _ E) as [u [d [-> [Hu Hs]]]].
        exists (String b u), d. split; [reflexivity |].
        split; [now apply nosep_cons |].
        apply (split1_at (String b u) d). now apply nosep_cons.
  - left. split; [reflexivity | now apply split1_none].
Qed.

Lemma split_not_nil (s : string) : split sep s <> [].
Proof.
  destruct s as [|a s]; simpl; [discriminate |].
  destruct (Ascii.eqb a sep); [discriminate |].
  destruct (split sep s); discriminate.
Qed.

(** The fields of [split] hold no separator, and joining them with the
    separator gives the string back. *)
Lemma split_nosep (s : string) :
  Forall (fun f => str_in (String sep "") f = false) (split sep s).
Proof.
  induction s as [|a s IH]; simpl.
  - now constructor.
  - destruct (Ascii.eqb_spec a sep) as [-> | Hne].
    + now constructor.
    + destruct (split sep s) as [|h t]; simpl.
      * constructor; [now apply nosep_cons | constructor].
      * inversion IH; subst. constructor; [now apply nosep_cons | assumption].
Qed.

Lemma split_join (s : string) : join (String sep "") (split sep s) = s.
Proof.
  induction s as [|a s IH]; [reflexivity |].
  cbn [split]. destruct (Ascii.eqb_spec a sep) as [-> | Hne].
  - pose proof (split_not_nil s) as Hne.
    destruct (split sep s) as [|h t]; [congruence |].
    cbn [join]. simpl. now rewrite <- IH.
  - pose proof (split_not_nil s) as Hnil.
    destruct (split sep s) as [|h t]; [congruence |].
    destruct t as [|h' t]; simpl in IH |- *; now rewrite <- IH.
Qed.

(** [split] is the only such list of fields. *)
Lemma split_unique (s : string) (fields : list string) :
  join (String sep "") fields = s ->
  fields <> [] ->
  Forall (fun f => str_in (String sep "") f = false) fields ->
  split sep s = fields.
Proof.
  revert fields. induction s as [|c s IH]; intros fields Hj Hne Hall.
  - destruct fields as [|f [|g rest]]; [congruence | |].
    + simpl in Hj. now subst.
    + simpl in Hj. apply sapp_eq_nil in Hj as [_ Hj]. discriminate.
  - destruct fields as [|f rest]; [congruence |].
    inversion Hall as [|? ? Hf Hrest]; subst. cbn [split].
    destruct (Ascii.eqb_spec c sep) as [-> | Hc].
    + destruct rest as [|g rest].
      * simpl in Hj. subst f. apply nosep_cons in Hf as [Hf _]. congruence.
      * destruct f as [|a f]; simpl in Hj.
        -- injection Hj as Hj. f_equal. now apply IH.
        -- injection Hj as -> _. apply nosep_cons in Hf as [Hf _]. congruence.
    + destruct rest as [|g rest].
      * simpl in Hj. subst f. apply nosep_cons in Hf as [_ Hf].
        rewrite (IH [s]); [reflexivity | reflexivity | discriminate |].
        now constructor.
      * destruct f as [|a f]; simpl in Hj.
        -- injection Hj as -> _. congruence.
        -- injection Hj as -> Hj. apply nosep_cons in Hf as [_ Hf].
           rewrite (IH (f :: g :: rest)); [reflexivity | | discriminate |].
           ++ exact Hj.
           ++ now constructor.
Qed.

End Split.

(** ** The parser *)

(** What [parse_email] returns when the trimmed input is cut at its first
    [@]. *)
Lemma parse_email_at (s u d : string) :
  strip s = u ++ "@" ++ d ->
  str_in "@" u = false ->
  parse_email s =
    Some (u, d,
          match split "." d with p :: _ => p | [] => d end,
          if (1 <? length (split "." d))%nat then List.last (split "." d) "" else "").
Proof.
  intros E Hu. unfold parse_email. rewrite E. simpl append.
  now rewrite split1_at.
Qed.

(** [parse_email] raises exactly when the trimmed input has no [@]. *)
Lemma parse_email_cases (s : string) :
  (str_in "@" (strip s) = false /\ parse_email s = None) \/
  (exists u d, strip s = u ++ "@" ++ d /\ str_in "@" u = false).
Proof.
  destruct (split1_cases "@" (strip s)) as [[Hin Hs] | [u [d [E [Hu Hs]]]]].
  - left. split; [assumption |]. unfold parse_email. now rewrite Hs.
  - right. now exists u, d.
Qed.

Lemma local_part_no_at (l : string) :
  all_chars local_char l = true -> str_in "@" l = false.
Proof. now apply nosep_all_chars. Qed.

(** On a validated input the cut is the one of the accepted shape. *)
Lemma validated_cut (s : string) :
  validate_email s = true ->
  exists u d, strip s = u ++ "@" ++ d /\ str_in "@" u = false /\
              exists first tail, d = first ++ "." ++ tail /\
                first <> "" /\ all_chars label_char first = true /\
                tail <> "" /\ all_chars tail_char tail = true.
Proof.
  intros H. apply validate_email_shape in H.
  destruct H as [l [f [r [E [Hl1 [Hl2 H]]]]]].
  exists l, (f ++ "." ++ r). split; [exact E |].
  split; [now apply local_part_no_at |]. now exists f, r.
Qed.

(** A domain that ends with a dot has an empty last field. *)
Lemma split_trailing_sep (sep : ascii) (p : string) :
  exists h l, split sep (p ++ String sep "") = h :: l ++ [""].
Proof.
  induction p as [|a p [h [l IH]]]; simpl append; cbn [split].
  - rewrite Ascii.eqb_refl. now exists "", [].
  - rewrite IH. destruct (Ascii.eqb a sep).
    + now exists "", (h :: l).
    + now exists (String a h), l.
Qed.

(** ** The classifier *)

Lemma key_matches_spec (d key : string) :
  key_matches d key = true <-> key_hit d key.
Proof.
  unfold key_matches, key_hit, ends_with.
  now rewrite orb_true_iff, String.eqb_eq, endswith_spec.
Qed.

Lemma first_match_hit (d : string) (before after : list (string * (string * string * string)))
    (key : string) (val : string * string * string) :
  Forall (fun kv => ~ key_hit d (fst kv)) before ->
  key_hit d key ->
  first_match d (before ++ (key, val) :: after) = Some val.
Proof.
  intros Hb Hk. induction Hb as [|[k v] before Hkv _ IH]; simpl.
  - apply key_matches_spec in Hk. now rewrite Hk.
  - destruct (key_matches d k) eqn:E; [| exact IH].
    apply key_matches_spec in E. now destruct Hkv.
Qed.

Lemma first_match_miss (d : string) (items : list (string * (string * string * string))) :
  (forall kv, In kv items -> ~ key_hit d (fst kv)) ->
  first_match d items = None.
Proof.
  induction items as [|[k v] items IH]; intros H; simpl; [reflexivity |].
  destruct (key_matches d k) eqn:E.
  - apply key_matches_spec in E. destruct (H (k, v)); [now left | exact E].
  - apply IH. intros kv Hin. apply H. now right.
Qed.

Lemma first_match_in (d : string) (items : list (string * (string * string * string)))
    (val : string * string * string) :
  first_match d items = Some val -> exists key, In (key, val) items.
Proof.
  induction items as [|[k v] items IH]; simpl; [discriminate |].
  destruct (key_matches d k).
  - intros [= ->]. exists k. now left.
  - intros H. destruct (IH H) as [key Hin]. exists key. now right.
Qed.

Lemma has_keyword_spec (d : string) :
  existsb (fun k => str_in k d) personal_keywords = true <-> has_keyword d.
Proof.
  unfold has_keyword. rewrite existsb_exists. split.
  - intros [k [Hin H]]. apply str_in_spec in H as [pre [post H]]. eauto.
  - intros [k [pre [post [Hin H]]]]. exists k. split; [assumption |].
    apply str_in_spec. eauto.
Qed.

Lemma ends_with_spec (d suf : string) : endswith d suf = true <-> ends_with d suf.
Proof. apply endswith_spec. Qed.

Lemma ends_with_false (d suf : string) : endswith d suf = false -> ~ ends_with d suf.
Proof. intros E H. apply ends_with_spec in H. congruence. Qed.

Lemma key_hit_false (d key : string) : key_matches d key = false -> ~ key_hit d key.
Proof. intros E H. apply key_matches_spec in H. congruence. Qed.

Lemma has_keyword_false (d : string) :
  existsb (fun k => str_in k d) personal_keywords = false -> ~ has_keyword d.
Proof. intros E H. apply has_keyword_spec in H. congruence. Qed.

Lemma detect_email_type_cases (d : string) :
  In (detect_email_type d) categories.
Proof.
  unfold detect_email_type, categories.
  destruct (existsb _ personal_keywords); [now left |].
  destruct (endswith_any _ _); [right; now left |].
  destruct (endswith _ ".gov"); [right; right; now left |].
  right; right; right; now left.
Qed.

Lemma categories_distinct : NoDup categories.
Proof. apply (bool_decide_unpack _). vm_compute. exact I. Qed.

(** ** MD5 on the test suite of RFC 1321 *)

Example md5_empty :
  MD5.md5_int (encode "") = 0xd41d8cd98f00b204e9800998ecf8427e%Z.
Proof. vm_compute. reflexivity. Qed.

Example md5_a :
  MD5.md5_int (encode "a") = 0x0cc175b9c0f1b6a831c399e269772661%Z.
Proof. vm_compute. reflexivity. Qed.

Example md5_abc :
  MD5.md5_int (encode "abc") = 0x900150983cd24fb0d6963f7d28e17f72%Z.
Proof. vm_compute. reflexivity. Qed.

Example md5_message_digest :
  MD5.md5_int (encode "message digest") = 0xf96b697d7cb7938d525a2f31aaf161d0%Z.
Proof. vm_compute. reflexivity. Qed.

Example md5_digits :
  MD5.md5_int
    (encode "12345678901234567890123456789012345678901234567890123456789012345678901234567890")
  = 0x57edf4a22be3c955ac49da2e2107b67a%Z.
Proof. vm_compute. reflexivity. Qed.

(** ** The bulk loop *)

(** The error record has the two keys [original] and [error]. *)
Lemma error_record_lookup (e key : string) :
  error_record e !! key =
    if String.eqb key "original" then Some (VStr e)
    else if String.eqb key "error" then Some (VStr "Invalid format")
    else None.
Proof.
  destruct (String.eqb_spec key "original") as [-> | H1]; [reflexivity |].
  destruct (String.eqb_spec key "error") as [-> | H2]; [reflexivity |].
  unfold error_record. cbn [list_to_map foldr uncurry fst snd].
  now rewrite !lookup_insert_ne, lookup_empty by congruence.
Qed.

Lemma parse_email_validated (s : string) :
  validate_email s = true -> exists r, parse_email s = Some r.
Proof.
  intros H. destruct (validated_cut s H) as [u [d [E [Hu _]]]].
  rewrite (parse_email_at s u d E Hu). eauto.
Qed.

(** The loop body never raises, and its record has the key ["error"]
    exactly on an invalid line. *)
Lemma analyze_line_total (e : string) :
  exists r, analyze_line e = Some r /\
            has_key "error" r = negb (validate_email e) /\
            (validate_email e = false -> r = error_record e).
Proof.
  unfold analyze_line. destruct (validate_email e) eqn:Hv.
  - destruct (parse_email_validated e Hv) as [[[[u d] n] x] ->].
    eexists. split; [reflexivity |]. split; [| discriminate].
    unfold has_key. cbn [list_to_map foldr uncurry fst snd].
    now rewrite !lookup_insert_ne, lookup_empty by discriminate.
  - eexists. split; [reflexivity |]. split; [reflexivity | auto].
Qed.

Lemma analyze_lines_acc (lines : list string) (acc : list (gmap string value)) :
  exists records,
    analyze_lines lines acc = Some (acc ++ records)%list /\
    Forall2 (fun e r => analyze_line e = Some r) lines records.
Proof.
  revert acc. induction lines as [|e lines IH]; intros acc; simpl.
  - exists []. split; [now rewrite app_nil_r | constructor].
  - destruct (analyze_line_total e) as [r [Hr _]]. rewrite Hr.
    destruct (IH (acc ++ [r])%list) as [records [Hrs HF]].
    exists (r :: records). split.
    + now rewrite Hrs, <- app_assoc.
    + now constructor.
Qed.

(** Both paths of the [try] count the records without the key
    ["error"]. *)
Lemma valid_count_spec (records : list (gmap string value)) :
  valid_count records =
  length (List.filter (fun r => negb (has_key "error" r)) records).
Proof.
  unfold valid_count, df_column.
  destruct (existsb (has_key "error") records); [| reflexivity].
  induction records as [|r records IH]; simpl; [reflexivity |].
  unfold has_key at 1. destruct (r !! "error"); simpl; now rewrite IH.
Qed.

Lemma valid_records_count (lines : list string) (records : list (gmap string value)) :
  Forall2 (fun e r => analyze_line e = Some r) lines records ->
  length (List.filter (fun r => negb (has_key "error" r)) records) =
  length (List.filter validate_email lines).
Proof.
  induction 1 as [|e r lines records Hr _ IH]; simpl; [reflexivity |].
  destruct (analyze_line_total e) as [r' [Hr' [Hk _]]].
  rewrite Hr in Hr'. injection Hr' as <-. rewrite Hk, negb_involutive.
  destruct (validate_email e); simpl; now rewrite IH.
Qed.

(** * The specification's statements *)

(** C1, as the specification words it, fails: the one-label address [a@b]
    matches the specification's pattern ("one or more dot-separated labels")
    and [validate_email] rejects it. *)
Lemma validate_email_single_label :
  ~ (validate_email "a@b" = true <-> spec_validate "a@b" = true).
Proof.
  intros [_ H]. assert (E : validate_email "a@b" = true) by now apply H.
  vm_compute in E. discriminate.
Qed.

(** C1, amended: [validate_email] returns true exactly when the trimmed
    input is a non-empty local part of letters, digits and [. _ + -], then
    [@], a non-empty first label of letters, digits and hyphens, a dot, and a
    non-empty tail of letters, digits, hyphens and dots; it returns false on
    the empty string and on every string without [@]. *)
Theorem validate_email_contract (s : string) :
  (validate_email s = true <-> accepted_shape (strip s)) /\
  validate_email "" = false /\
  ((forall pre post, s <> pre ++ "@" ++ post) -> validate_email s = false).
Proof.
  split; [apply validate_email_shape |]. split; [reflexivity |].
  intros H. unfold validate_email.
  destruct (str_in "@" s) eqn:E.
  - apply str_in_spec in E as [pre [post E]]. now destruct (H pre post).
  - now rewrite orb_true_r.
Qed.

Lemma validate_email_contract_witness :
  validate_email " user.name+tag@example-domain.com " = true /\
  validate_email "not-an-email" = false.
Proof.
  split.
  - apply (proj1 (validate_email_contract " user.name+tag@example-domain.com ")).
    exists "user.name+tag", "example-domain", "com".
    repeat split; (reflexivity || discriminate).
  - apply (proj2 (proj2 (validate_email_contract "not-an-email"))).
    intros pre post E.
    assert (H : str_in "@" "not-an-email" = true)
      by (apply str_in_spec; now exists pre, post).
    vm_compute in H. discriminate.
Defined.

(** C2: for the domain [gmail.com] the provider name is "Google Mail" and
    the email type contains "Personal". *)
Theorem classify_gmail :
  provider_name (provider_insights "gmail.com") = "Google Mail" /\
  str_in "Personal" (detect_email_type "gmail.com") = true.
Proof. split; reflexivity. Qed.

(** C3: the email type is one of four distinct categories, decided on the
    lower-cased domain in a fixed order: a provider keyword anywhere in it
    gives Personal; otherwise a suffix [.edu], [.ac.in] or [.edu.in] gives
    Educational; otherwise a suffix [.gov] gives Government; otherwise
    Business / Organizational. *)
Theorem detect_email_type_precedence (domain_full : string) :
  let d := lower domain_full in
  let edu := ends_with d ".edu" \/ ends_with d ".ac.in" \/ ends_with d ".edu.in" in
  (has_keyword d -> detect_email_type domain_full = "Personal Email") /\
  (~ has_keyword d -> edu ->
   detect_email_type domain_full = "Educational / Academic Email") /\
  (~ has_keyword d -> ~ edu -> ends_with d ".gov" ->
   detect_email_type domain_full = "Government Email") /\
  (~ has_keyword d -> ~ edu -> ~ ends_with d ".gov" ->
   detect_email_type domain_full = "Business / Organizational Email") /\
  In (detect_email_type domain_full) categories /\
  NoDup categories.
Proof.
  intros d edu. unfold detect_email_type. fold d.
  assert (Hedu : endswith_any d [".edu"; ".ac.in"; ".edu.in"] = true <-> edu).
  { unfold edu, ends_with. rewrite endswith_any_spec. split.
    - intros [suf [pre [Hin E]]]. simpl in Hin.
      destruct Hin as [<- | [<- | [<- | []]]]; eauto.
    - intros [[pre E] | [[pre E] | [pre E]]]; eexists; exists pre;
        (split; [| exact E]); simpl; auto. }
  pose proof categories_distinct as Hnd.
  destruct (existsb (fun k => str_in k d) personal_keywords) eqn:Hk.
  - apply has_keyword_spec in Hk.
    repeat split; try tauto. now left.
  - apply has_keyword_false in Hk.
    destruct (endswith_any d [".edu"; ".ac.in"; ".edu.in"]) eqn:He.
    + assert (He' : edu) by now apply Hedu.
      repeat split; try tauto. right; now left.
    + assert (He' : ~ edu) by (intros H; apply Hedu in H; discriminate).
      destruct (endswith d ".gov") eqn:Hg.
      * apply ends_with_spec in Hg.
        repeat split; try tauto. right; right; now left.
      * apply ends_with_false in Hg.
        repeat split; try tauto. right; right; right; now left.
Qed.

Lemma detect_email_type_precedence_witness :
  detect_email_type "Mail.YAHOO.co.uk" = "Personal Email" /\
  detect_email_type "cs.iitb.AC.IN" = "Educational / Academic Email" /\
  detect_email_type "nasa.gov" = "Government Email" /\
  detect_email_type "example.org" = "Business / Organizational Email".
Proof.
  split; [| split; [| split]].
  - apply (proj1 (detect_email_type_precedence "Mail.YAHOO.co.uk")).
    exists "yahoo", "mail.", ".co.uk". split; [simpl; auto | reflexivity].
  - apply (proj1 (proj2 (detect_email_type_precedence "cs.iitb.AC.IN"))).
    + apply has_keyword_false. reflexivity.
    + right. left. exists "cs.iitb". reflexivity.
  - apply (proj1 (proj2 (proj2 (detect_email_type_precedence "nasa.gov")))).
    + apply has_keyword_false. reflexivity.
    + intros [H | [H | H]]; revert H; apply ends_with_false; reflexivity.
    + exists "nasa". reflexivity.
  - apply (proj1 (proj2 (proj2 (proj2 (detect_email_type_precedence "example.org"))))).
    + apply has_keyword_false. reflexivity.
    + intros [H | [H | H]]; revert H; apply ends_with_false; reflexivity.
    + apply ends_with_false. reflexivity.
Defined.

(** C4: on the lower-cased domain, [provider_insights] returns the entry of
    the first key of [mapping], in declaration order, that equals the domain
    or follows a dot at its end; with no such key, a suffix [.edu] gives the
    educational entry, else a suffix [.gov] the government entry, else the
    entry named "Custom / Organization", as for [unknownhost.xyz]; a record
    with the three fields is returned on every path. *)
Theorem provider_insights_first_match (domain_full : string) :
  let d := lower domain_full in
  (forall before key val after,
      mapping = (before ++ (key, val) :: after)%list ->
      Forall (fun kv => ~ key_hit d (fst kv)) before ->
      key_hit d key ->
      provider_insights domain_full = info_of val) /\
  ((forall kv, In kv mapping -> ~ key_hit d (fst kv)) ->
   (ends_with d ".edu" -> provider_insights domain_full = edu_entry) /\
   (~ ends_with d ".edu" -> ends_with d ".gov" ->
    provider_insights domain_full = gov_entry) /\
   (~ ends_with d ".edu" -> ~ ends_with d ".gov" ->
    provider_insights domain_full = custom_entry)) /\
  provider_insights "unknownhost.xyz" = custom_entry /\
  provider_name custom_entry = "Custom / Organization" /\
  exists name type notes,
    provider_insights domain_full = ProviderInfo name type notes.
Proof.
  intros d. unfold provider_insights. fold d.
  split; [| split; [| split; [| split]]].
  - intros before key val after E Hb Hk. rewrite E.
    now rewrite (first_match_hit d before after key val Hb Hk).
  - intros Hmiss. rewrite (first_match_miss d mapping Hmiss).
    destruct (endswith d ".edu") eqn:He.
    + apply ends_with_spec in He. tauto.
    + apply ends_with_false in He.
      destruct (endswith d ".gov") eqn:Hg.
      * apply ends_with_spec in Hg. tauto.
      * apply ends_with_false in Hg. tauto.
  - reflexivity.
  - reflexivity.
  - destruct (match first_match d mapping with
              | Some val => info_of val
              | None => _
              end) as [n t o].
    now exists n, t, o.
Qed.

Lemma provider_insights_first_match_witness :
  provider_insights "Corp.Mail.COM" =
    ProviderInfo "mail.com" "Free/Consumer"
      "Consumer email service with multiple domain choices." /\
  provider_insights "cs.mit.edu" = edu_entry /\
  provider_insights "nasa.gov" = gov_entry /\
  provider_insights "example.org" = custom_entry.
Proof.
  assert (Hmiss : forall d items,
             forallb (fun kv => negb (key_matches d (fst kv))) items = true ->
             forall kv : string * (string * string * string),
               In kv items -> ~ key_hit d (fst kv)).
  { intros d items H kv Hin. rewrite forallb_forall in H.
    apply key_hit_false. specialize (H kv Hin).
    now destruct (key_matches d (fst kv)). }
  split; [| split; [| split]].
  - apply (proj1 (provider_insights_first_match "Corp.Mail.COM")
             (firstn 10 mapping) "mail.com"
             ("mail.com", "Free/Consumer",
              "Consumer email service with multiple domain choices.")
             (skipn 11 mapping)).
    + reflexivity.
    + apply List.Forall_forall. apply (Hmiss "corp.mail.com"). reflexivity.
    + right. exists "corp". reflexivity.
  - destruct (provider_insights_first_match "cs.mit.edu") as [_ [H _]].
    apply H.
    + apply Hmiss. reflexivity.
    + exists "cs.mit". reflexivity.
  - destruct (provider_insights_first_match "nasa.gov") as [_ [H _]].
    apply H.
    + apply Hmiss. reflexivity.
    + apply ends_with_false. reflexivity.
    + exists "nasa". reflexivity.
  - destruct (provider_insights_first_match "example.org") as [_ [H _]].
    apply H.
    + apply Hmiss. reflexivity.
    + apply ends_with_false. reflexivity.
    + apply ends_with_false. reflexivity.
Defined.

(** C5: on an input that [validate_email] accepts, [parse_email] returns,
    and its local part, [@] and its full domain, joined, are the trimmed
    input. *)
Theorem parse_rejoin (s : string) :
  validate_email s = true ->
  exists u d n x,
    parse_email s = Some (u, d, n, x) /\ u ++ "@" ++ d = strip s.
Proof.
  intros H. destruct (validated_cut s H) as [u [d [E [Hu _]]]].
  rewrite (parse_email_at s u d E Hu). eauto 10.
Qed.

Lemma parse_rejoin_witness :
  exists u d n x,
    parse_email "  user.name+tag@sub.example.co.uk " = Some (u, d, n, x) /\
    u ++ "@" ++ d = "user.name+tag@sub.example.co.uk".
Proof.
  apply (parse_rejoin "  user.name+tag@sub.example.co.uk "). reflexivity.
Defined.

(** C6: [parse_email] cuts the trimmed input at its first [@]; the domain
    label is the first of the dot-separated fields of the domain, and the
    extension is the last of them when there are at least two, else the
    empty string; every domain has such fields.  The two examples of the
    specification follow. *)
Theorem parse_email_fields :
  (forall d, exists fields,
      join "." fields = d /\ fields <> [] /\
      Forall (fun f => str_in "." f = false) fields) /\
  (forall s u d fields,
      strip s = u ++ "@" ++ d ->
      str_in "@" u = false ->
      join "." fields = d ->
      fields <> [] ->
      Forall (fun f => str_in "." f = false) fields ->
      parse_email s =
        Some (u, d, hd "" fields,
              if (1 <? length fields)%nat then List.last fields "" else "")) /\
  parse_email "user@example.com" =
    Some ("user", "example.com", "example", "com") /\
  parse_email "user@sub.example.co.uk" =
    Some ("user", "sub.example.co.uk", "sub", "uk").
Proof.
  split; [| split; [| split; reflexivity]].
  { intros d. exists (split "." d).
    split; [apply split_join |]. split; [apply split_not_nil | apply split_nosep]. }
  intros s u d fields E Hu Hj Hne Hall.
  rewrite (parse_email_at s u d E Hu).
  rewrite (split_unique "." d fields Hj Hne Hall).
  destruct fields; [congruence | reflexivity].
Qed.

Lemma parse_email_fields_witness :
  parse_email " first.last@Mail.Example.org " =
    Some ("first.last", "Mail.Example.org", "Mail", "org") /\
  parse_email "root@localhost" = Some ("root", "localhost", "localhost", "").
Proof.
  split.
  - apply (proj1 (proj2 parse_email_fields) " first.last@Mail.Example.org "
             "first.last" "Mail.Example.org" ["Mail"; "Example"; "org"]);
      try reflexivity; [discriminate |].
    repeat constructor.
  - apply (proj1 (proj2 parse_email_fields) "root@localhost"
             "root" "localhost" ["localhost"]);
      try reflexivity; [discriminate |].
    repeat constructor.
Defined.

(** With valid lines only the frame has no column ["error"], and the count
    comes from the [except] branch. *)
Example bulk_all_valid :
  df_column [gmail_record] "error" = None /\
  analyze_bulk_lines ["a@gmail.com"] = Some (Report [gmail_record] 1 1).
Proof. split; vm_compute; reflexivity. Qed.

(** With blank lines only the handler shows its warning. *)
Example bulk_blank_input : analyze_bulk ("  " ++ LF ++ LF) = Some Warning.
Proof. reflexivity. Qed.

(** C7: the bulk loop handles each line on its own.  It never aborts; the
    record of a line is the one the loop body gives for that line alone; an
    invalid line gives the record with the keys [original] and [error], the
    latter "Invalid format"; the summary reports the number of lines and
    the number of valid ones.  For the lines [a@gmail.com] and
    [not-an-email] the records are one valid record and one error record,
    and the summary reports 2 and 1. *)
Theorem bulk_analysis_isolates_lines :
  (forall lines, exists records,
      analyze_lines lines [] = Some records /\
      Forall2 (fun e r => analyze_line e = Some r) lines records /\
      Forall2 (fun e r => validate_email e = false -> r = error_record e)
        lines records /\
      (lines <> [] ->
       analyze_bulk_lines lines =
         Some (Report records (length lines)
                 (length (List.filter validate_email lines))))) /\
  (forall e key,
      error_record e !! key =
        if String.eqb key "original" then Some (VStr e)
        else if String.eqb key "error" then Some (VStr "Invalid format")
        else None) /\
  analyze_bulk_lines ["a@gmail.com"; "not-an-email"] =
    Some (Report [gmail_record; error_record "not-an-email"] 2 1) /\
  analyze_bulk ("a@gmail.com" ++ LF ++ "not-an-email") =
    Some (Report [gmail_record; error_record "not-an-email"] 2 1).
Proof.
  split; [| split; [apply error_record_lookup | split; vm_compute; reflexivity]].
  intros lines.
  destruct (analyze_lines_acc lines []) as [records [Hrs HF]].
  simpl in Hrs. exists records.
  split; [exact Hrs |]. split; [exact HF |]. split.
  - clear Hrs. induction HF as [|e r lines records Hr _ IH]; constructor.
    + intros Hv. destruct (analyze_line_total e) as [r' [Hr' [_ He]]].
      rewrite Hr in Hr'. injection Hr' as <-. auto.
    + exact IH.
  - intros Hne. unfold analyze_bulk_lines.
    destruct lines as [|e lines]; [congruence |].
    rewrite Hrs, valid_count_spec, (valid_records_count _ _ HF).
    now rewrite (Forall2_length _ _ _ HF).
Qed.

Lemma bulk_analysis_isolates_lines_witness :
  exists records,
    analyze_bulk_lines ["x@y.org"; "oops"; "also bad@"] =
      Some (Report records 3 1) /\
    Forall2 (fun e r => validate_email e = false -> r = error_record e)
      ["x@y.org"; "oops"; "also bad@"] records.
Proof.
  destruct (proj1 bulk_analysis_isolates_lines ["x@y.org"; "oops"; "also bad@"])
    as [records [_ [_ [Herr Hrep]]]].
  exists records. split; [| exact Herr].
  apply Hrep. discriminate.
Defined.

(** C8: every classification has its fallback, so that no lookup can fail
    on a missing key: [tld_info] gives "No TLD / local" on the empty
    extension and "Unknown or custom TLD" on an extension that is not a key
    of [TLD_INFO]; [suggest_fix] gives no suggestion on a domain that is not
    a key of [COMMON_FIXES]; [provider_insights] returns an entry of
    [mapping] or one of its three fallback entries; [detect_email_type]
    returns one of the four categories; and [parse_email] raises on no input
    that [validate_email] accepts. *)
Theorem classification_total :
  tld_info "" = "No TLD / local" /\
  (forall x, x <> "" -> TLD_INFO !! lower x = None ->
             tld_info x = "Unknown or custom TLD") /\
  (forall x v, x <> "" -> TLD_INFO !! lower x = Some v -> tld_info x = v) /\
  (forall d, COMMON_FIXES !! lower d = None -> suggest_fix d = None) /\
  (forall d,
      In (provider_insights d)
        (map (fun kv => info_of (snd kv)) mapping
           ++ [edu_entry; gov_entry; custom_entry])%list) /\
  (forall d, In (detect_email_type d) categories) /\
  (forall s, validate_email s = true -> exists r, parse_email s = Some r).
Proof.
  split; [reflexivity |]. split; [| split; [| split; [| split; [| split]]]].
  - intros x Hx Hk. unfold tld_info, dict_get.
    destruct (String.eqb_spec x ""); [congruence |]. now rewrite Hk.
  - intros x v Hx Hk. unfold tld_info, dict_get.
    destruct (String.eqb_spec x ""); [congruence |]. now rewrite Hk.
  - intros d Hk. exact Hk.
  - intros d. unfold provider_insights. apply in_or_app.
    destruct (first_match (lower d) mapping) as [val |] eqn:E.
    + left. apply first_match_in in E as [key Hin].
      apply in_map_iff. now exists (key, val).
    + right. destruct (endswith (lower d) ".edu"); [now left |].
      destruct (endswith (lower d) ".gov"); [right; now left |].
      right; right; now left.
  - intros d. apply (detect_email_type_cases d).
  - apply parse_email_validated.
Qed.

Lemma classification_total_witness :
  tld_info "XYZ" = "Unknown or custom TLD" /\
  tld_info "Uk" = "United Kingdom (country code TLD)" /\
  suggest_fix "gmail.com" = None /\
  exists r, parse_email "ridhyar.@gmail.com" = Some r.
Proof.
  destruct classification_total as [_ [H1 [H2 [H3 [_ [_ H4]]]]]].
  split; [| split; [| split]].
  - apply H1; [discriminate | reflexivity].
  - apply H2; [discriminate | reflexivity].
  - apply H3. reflexivity.
  - apply H4. reflexivity.
Defined.

(** C9: [fake_creation_year] is a function of the email string alone: the
    MD5 digest of its UTF-8 encoding, read as a number, reduced modulo 25 and
    offset by 2000; so equal strings give equal years, and every year lies
    between 2000 and 2024. *)
Theorem fake_creation_year_range (email : string) :
  fake_creation_year email = (2000 + MD5.md5_int (encode email) mod 25)%Z /\
  (2000 <= fake_creation_year email <= 2024)%Z /\
  (forall email', email' = email ->
                  fake_creation_year email' = fake_creation_year email).
Proof.
  split; [reflexivity |]. split.
  - unfold fake_creation_year.
    pose proof (Z.mod_pos_bound (MD5.md5_int (encode email)) 25). lia.
  - now intros email' ->.
Qed.

Lemma fake_creation_year_range_witness :
  fake_creation_year "a@gmail.com" = 2022%Z /\
  (2000 <= fake_creation_year "a@gmail.com" <= 2024)%Z /\
  fake_creation_year (strip " a@gmail.com ") = fake_creation_year "a@gmail.com".
Proof.
  destruct (fake_creation_year_range "a@gmail.com") as [E [Hr Hd]].
  split; [| split; [exact Hr |]].
  - rewrite E. vm_compute. reflexivity.
  - apply Hd. reflexivity.
Defined.

(** * Further properties of the code *)

(** ** Trimming, once more *)

Lemma local_char_not_space (c : ascii) : local_char c = true -> isspace c = false.
Proof. destruct c as [[] [] [] [] [] [] [] []]; (reflexivity || discriminate). Qed.

Lemma tail_char_not_space (c : ascii) : tail_char c = true -> isspace c = false.
Proof. destruct c as [[] [] [] [] [] [] [] []]; (reflexivity || discriminate). Qed.

Lemma label_char_tail (c : ascii) : label_char c = true -> tail_char c = true.
Proof. unfold tail_char. now intros ->. Qed.

Lemma label_char_local (c : ascii) : label_char c = true -> local_char c = true.
Proof. destruct c as [[] [] [] [] [] [] [] []]; (reflexivity || discriminate). Qed.

Lemma tail_char_local (c : ascii) : tail_char c = true -> local_char c = true.
Proof. destruct c as [[] [] [] [] [] [] [] []]; (reflexivity || discriminate). Qed.

(** A non-empty string has a last character. *)
Lemma snoc_cases (s : string) : s = "" \/ exists t c, s = t ++ String c "".
Proof.
  induction s as [|a s [-> | [t [c ->]]]]; [now left | |]; right.
  - now exists "", a.
  - now exists (String a t), c.
Qed.

Lemma rstrip_snoc (t : string) (c : ascii) :
  isspace c = false -> rstrip (t ++ String c "") = t ++ String c "".
Proof.
  intros Hc. induction t as [|a t IH]; simpl.
  - now rewrite Hc.
  - rewrite IH. destruct (t ++ String c "") eqn:E; [| reflexivity].
    now apply snoc_not_nil in E.
Qed.

Lemma rstrip_idem (s : string) : rstrip (rstrip s) = rstrip s.
Proof.
  destruct (snoc_cases (rstrip s)) as [-> | [t [c E]]]; [reflexivity |].
  rewrite E. apply rstrip_snoc. now apply (rstrip_last s t).
Qed.

(** [rstrip] keeps a first character that is not white space. *)
Lemma rstrip_head (c : ascii) (s : string) :
  isspace c = false -> exists r, rstrip (String c s) = String c r.
Proof.
  intros Hc. simpl. destruct (rstrip s); rewrite ?Hc; eauto.
Qed.

Lemma lstrip_head (s : string) :
  lstrip s = "" \/ exists c r, lstrip s = String c r /\ isspace c = false.
Proof.
  induction s as [|a s IH]; simpl; [now left |].
  destruct (isspace a) eqn:Ha; [exact IH | right; eauto].
Qed.

Lemma strip_idem (s : string) : strip (strip s) = strip s.
Proof.
  unfold strip.
  assert (E : lstrip (rstrip (lstrip s)) = rstrip (lstrip s)).
  { destruct (lstrip_head s) as [-> | [c [r [-> Hc]]]]; [reflexivity |].
    destruct (rstrip_head c r Hc) as [r' ->]. simpl. now rewrite Hc. }
  rewrite E. apply rstrip_idem.
Qed.

(** A string of the accepted shape is already trimmed. *)
Lemma accepted_shape_trimmed (t : string) : accepted_shape t -> strip t = t.
Proof.
  intros [l [f [r [-> [Hl1 [Hl2 [_ [_ [Hr1 Hr2]]]]]]]]].
  destruct l as [|a l]; [congruence |].
  simpl in Hl2. apply andb_true_iff in Hl2 as [Ha _].
  destruct (snoc_cases r) as [-> | [t [c ->]]]; [congruence |].
  rewrite all_chars_app in Hr2. apply andb_true_iff in Hr2 as [_ Hc].
  simpl in Hc. rewrite andb_true_r in Hc.
  assert (E : String a l ++ "@" ++ f ++ "." ++ t ++ String c "" =
              (String a l ++ "@" ++ f ++ "." ++ t) ++ String c "")
    by now rewrite !sapp_assoc.
  assert (L : lstrip (String a l ++ "@" ++ f ++ "." ++ t ++ String c "") =
              String a l ++ "@" ++ f ++ "." ++ t ++ String c "")
    by (simpl; now rewrite (local_char_not_space a Ha)).
  unfold strip. rewrite L, E.
  apply rstrip_snoc. now apply tail_char_not_space.
Qed.

Lemma accepted_shape_valid (t : string) :
  accepted_shape t -> validate_email t = true.
Proof.
  intros H. apply validate_email_shape. now rewrite accepted_shape_trimmed.
Qed.

(** X1: trimming first changes nothing: the validator and the parser give
    the same result on an input and on the trimmed input, as when a handler
    strips a line before it calls them. *)
Theorem trim_invariance (s : string) :
  validate_email (strip s) = validate_email s /\
  parse_email (strip s) = parse_email s.
Proof.
  split.
  - apply eq_true_iff_eq. rewrite !validate_email_shape. now rewrite strip_idem.
  - unfold parse_email. now rewrite strip_idem.
Qed.

Lemma str_app_length (s t : string) :
  String.length (s ++ t) = (String.length s + String.length t)%nat.
Proof. induction s as [|c s IH]; simpl; [reflexivity | now rewrite IH]. Qed.

(** ** Fields of a split, once more *)

Section SplitFields.

Variable sep : ascii.

(** A first field without separator, followed by a separator. *)
Lemma split_cons_field (f r : string) :
  str_in (String sep "") f = false ->
  split sep (f ++ String sep r) = f :: split sep r.
Proof.
  induction f as [|a f IH]; simpl append; cbn [split].
  - now rewrite Ascii.eqb_refl.
  - rewrite nosep_cons. intros [Ha Hf].
    destruct (Ascii.eqb_spec a sep); [congruence |]. now rewrite IH.
Qed.

(** A last field without separator, after a separator. *)
Lemma split_snoc_field (p x : string) :
  str_in (String sep "") x = false ->
  split sep (p ++ String sep x) = (split sep p ++ [x])%list.
Proof.
  intros Hx. induction p as [|a p IH]; simpl append; cbn [split].
  - rewrite Ascii.eqb_refl. now rewrite (split_unique sep x [x]); [| | | constructor].
  - rewrite IH. destruct (Ascii.eqb a sep); [reflexivity |].
    pose proof (split_not_nil sep p) as Hne.
    destruct (split sep p); [congruence | reflexivity].
Qed.

Lemma split_single (d : string) :
  str_in (String sep "") d = false -> split sep d = [d].
Proof. intros H. apply split_unique; [reflexivity | discriminate | now constructor]. Qed.

(** Every field is made of characters of the string. *)
Lemma split_all_chars (p : ascii -> bool) (s : string) :
  all_chars p s = true -> Forall (fun f => all_chars p f = true) (split sep s).
Proof.
  induction s as [|a s IH]; simpl; intros H.
  - now constructor.
  - apply andb_true_iff in H as [Ha Hs]. specialize (IH Hs).
    destruct (Ascii.eqb a sep); [now constructor |].
    destruct (split sep s) as [|h t]; simpl.
    + constructor; [simpl; now rewrite Ha | constructor].
    + inversion IH; subst. constructor; [simpl; now rewrite Ha | assumption].
Qed.

(** The join of a non-empty list of fields ends with its last field, after
    a separator unless the field is the only one. *)
Lemma join_last (fields : list string) :
  fields <> [] ->
  join (String sep "") fields = List.last fields "" \/
  exists pre, join (String sep "") fields = pre ++ String sep (List.last fields "").
Proof.
  induction fields as [|f [|g rest] IH]; intros Hne; [congruence | now left |].
  right.
  change (join (String sep "") (f :: g :: rest))
    with (f ++ String sep (join (String sep "") (g :: rest))).
  change (List.last (f :: g :: rest) "") with (List.last (g :: rest) "").
  destruct IH as [E | [pre E]]; [discriminate | |]; rewrite E.
  - now exists f.
  - exists (f ++ String sep pre). now rewrite sapp_assoc.
Qed.

End SplitFields.

Lemma Forall_last {A : Type} (P : A -> Prop) (l : list A) (d : A) :
  Forall P l -> l <> [] -> P (List.last l d).
Proof.
  induction 1 as [|x l Hx Hl IH]; intros Hne; [congruence |].
  destruct l as [|y l]; [exact Hx | apply IH; discriminate].
Qed.

Lemma join_length_last (sep : ascii) (fields : list string) :
  fields <> [] ->
  (String.length (List.last fields "") <=
   String.length (join (String sep "") fields))%nat.
Proof.
  intros Hne. destruct (join_last sep fields Hne) as [-> | [pre ->]]; [lia |].
  rewrite str_app_length. simpl. lia.
Qed.

(** ** The parts of a validated address *)

Lemma tail_nodot_label (x : string) :
  all_chars tail_char x = true -> str_in "." x = false ->
  all_chars label_char x = true.
Proof.
  induction x as [|c x IH]; [reflexivity |].
  simpl all_chars. rewrite andb_true_iff, nosep_cons. intros [Hc Hx] [Hne Hd].
  rewrite (IH Hx Hd), andb_true_r.
  unfold tail_char in Hc. apply orb_true_iff in Hc as [Hc | Hc]; [exact Hc |].
  apply Ascii.eqb_eq in Hc. congruence.
Qed.

(** What [parse_email] returns on a validated input, in terms of the three
    parts of the accepted shape. *)
Lemma validated_fields (s : string) :
  validate_email s = true ->
  exists l f r,
    strip s = l ++ "@" ++ f ++ "." ++ r /\
    l <> "" /\ all_chars local_char l = true /\
    f <> "" /\ all_chars label_char f = true /\
    r <> "" /\ all_chars tail_char r = true /\
    parse_email s = Some (l, f ++ "." ++ r, f, List.last (split "." r) "").
Proof.
  intros H. apply validate_email_shape in H.
  destruct H as [l [f [r [E [Hl1 [Hl2 [Hf1 [Hf2 [Hr1 Hr2]]]]]]]]].
  exists l, f, r. repeat (split; [assumption |]).
  rewrite (parse_email_at s l (f ++ "." ++ r) E (local_part_no_at l Hl2)).
  simpl append.
  rewrite (split_cons_field "." f r) by now apply (nosep_all_chars "." label_char).
  pose proof (split_not_nil "." r) as Hne.
  destruct (split "." r) as [|h t] eqn:Er; [congruence | reflexivity].
Qed.

(** X2: the parts that [parse_email] returns on a validated input: the
    username is not empty and is made of the local-part characters; the
    domain holds a dot, no [@] and only letters, digits, hyphens and dots;
    the domain label is not empty; label and extension are made of letters,
    digits and hyphens. *)
Theorem validated_parts (s u d n x : string) :
  validate_email s = true ->
  parse_email s = Some (u, d, n, x) ->
  u <> "" /\ all_chars local_char u = true /\
  str_in "@" d = false /\ str_in "." d = true /\
  all_chars tail_char d = true /\
  n <> "" /\ all_chars label_char n = true /\
  all_chars label_char x = true.
Proof.
  intros Hv Hp.
  destruct (validated_fields s Hv)
    as [l [f [r [_ [Hl1 [Hl2 [Hf1 [Hf2 [Hr1 [Hr2 E]]]]]]]]]].
  rewrite E in Hp. injection Hp as <- <- <- <-.
  assert (Hd : all_chars tail_char (f ++ "." ++ r) = true).
  { rewrite all_chars_app. simpl. rewrite Hr2, andb_true_r.
    clear -Hf2. induction f as [|c f IH]; [reflexivity |].
    simpl in Hf2 |- *. apply andb_true_iff in Hf2 as [Hc Hf].
    now rewrite (label_char_tail c Hc), IH. }
  repeat split; try assumption.
  - now apply (nosep_all_chars "@" tail_char).
  - apply str_in_spec. now exists f, r.
  - apply tail_nodot_label.
    + apply Forall_last; [now apply split_all_chars | apply split_not_nil].
    + apply (Forall_last (fun g => str_in "." g = false));
        [apply split_nosep | apply split_not_nil].
Qed.

Lemma validated_parts_witness :
  all_chars label_char "uk" = true /\ str_in "@" "mail.example.co.uk" = false.
Proof.
  destruct (validated_parts " joe.bloggs@mail.example.co.uk"
              "joe.bloggs" "mail.example.co.uk" "mail" "uk")
    as [_ [_ [H1 [_ [_ [_ [_ H2]]]]]]]; [reflexivity | reflexivity |].
  split; [exact H2 | exact H1].
Defined.

(** X3: on a validated input the domain starts with the domain label and a
    dot and ends with a dot and the extension, which do not overlap. *)
Theorem domain_bracketed (s u d n x : string) :
  validate_email s = true ->
  parse_email s = Some (u, d, n, x) ->
  (exists rest, d = n ++ "." ++ rest) /\
  ends_with d ("." ++ x) /\
  (String.length n + 1 + String.length x <= String.length d)%nat.
Proof.
  intros Hv Hp.
  destruct (validated_fields s Hv)
    as [l [f [r [_ [_ [_ [_ [_ [_ [_ E]]]]]]]]]].
  rewrite E in Hp. injection Hp as <- <- <- <-.
  pose proof (split_not_nil "." r) as Hne.
  split; [now exists r |]. split.
  - destruct (join_last "." (split "." r) Hne) as [J | [pre J]];
      rewrite split_join in J.
    + exists f. now rewrite <- J.
    + exists (f ++ "." ++ pre). rewrite J at 1. now rewrite !sapp_assoc.
  - pose proof (join_length_last "." (split "." r) Hne) as Hlen.
    rewrite split_join in Hlen. rewrite str_app_length. simpl. lia.
Qed.

Lemma domain_bracketed_witness :
  ends_with "mail.example.co.uk" ".uk" /\ ends_with "b.c." ".".
Proof.
  split.
  - apply (domain_bracketed "joe@mail.example.co.uk" "joe"
             "mail.example.co.uk" "mail" "uk"); reflexivity.
  - apply (domain_bracketed "a@b.c." "a" "b.c." "b" ""); reflexivity.
Defined.

(** X4: the extension is the text after the last dot of the domain and the
    domain label the text before its first dot; a domain without dot is its
    own label and has the empty extension. *)
Theorem parse_email_dots (s u : string) :
  str_in "@" u = false ->
  (forall p x, strip s = u ++ "@" ++ p ++ "." ++ x -> str_in "." x = false ->
               exists n, parse_email s = Some (u, p ++ "." ++ x, n, x)) /\
  (forall n q, strip s = u ++ "@" ++ n ++ "." ++ q -> str_in "." n = false ->
               exists x, parse_email s = Some (u, n ++ "." ++ q, n, x)) /\
  (forall d, strip s = u ++ "@" ++ d -> str_in "." d = false ->
             parse_email s = Some (u, d, d, "")).
Proof.
  intros Hu. split; [| split].
  - intros p x E Hx. rewrite (parse_email_at s u _ E Hu). simpl append.
    rewrite (split_snoc_field "." p x Hx).
    pose proof (split_not_nil "." p) as Hne.
    destruct (split "." p) as [|h t]; [congruence |].
    exists h. rewrite last_last.
    replace (1 <? length ((h :: t) ++ [x]))%nat with true; [reflexivity |].
    rewrite length_app. simpl. symmetry. apply Nat.ltb_lt. lia.
  - intros n q E Hn. rewrite (parse_email_at s u _ E Hu). simpl append.
    rewrite (split_cons_field "." n q Hn). eauto.
  - intros d E Hd. rewrite (parse_email_at s u d E Hu).
    now rewrite (split_single "." d Hd).
Qed.

Lemma parse_email_dots_witness :
  (exists n, parse_email "joe@mail.example.co.uk" =
               Some ("joe", "mail.example.co.uk", n, "uk")) /\
  (exists x, parse_email "joe@mail.example.co.uk" =
               Some ("joe", "mail.example.co.uk", "mail", x)) /\
  parse_email "root@localhost" = Some ("root", "localhost", "localhost", "").
Proof.
  split; [| split].
  - apply (proj1 (parse_email_dots "joe@mail.example.co.uk" "joe" eq_refl)
             "mail.example.co" "uk"); reflexivity.
  - apply (proj1 (proj2 (parse_email_dots "joe@mail.example.co.uk" "joe" eq_refl))
             "mail" "example.co.uk"); reflexivity.
  - apply (proj2 (proj2 (parse_email_dots "root@localhost" "root" eq_refl)));
      reflexivity.
Defined.

(** X5: the validator "accepts + aliases": inserting [+tag] after the
    username of a validated address, for a tag of local-part characters,
    gives an address that is validated too and that parses to the same
    domain, domain label and extension. *)
Theorem plus_alias (s u d n x tag : string) :
  validate_email s = true ->
  parse_email s = Some (u, d, n, x) ->
  all_chars local_char tag = true ->
  validate_email (u ++ "+" ++ tag ++ "@" ++ d) = true /\
  parse_email (u ++ "+" ++ tag ++ "@" ++ d) = Some (u ++ "+" ++ tag, d, n, x).
Proof.
  intros Hv Hp Htag.
  assert (Et : u ++ "+" ++ tag ++ "@" ++ d = (u ++ "+" ++ tag) ++ "@" ++ d)
    by now rewrite !sapp_assoc.
  rewrite Et. clear Et.
  destruct (validate_email_shape s) as [Hshape _]. specialize (Hshape Hv).
  destruct Hshape as [l [f [r [E [Hl1 [Hl2 [Hf1 [Hf2 [Hr1 Hr2]]]]]]]]].
  pose proof (local_part_no_at l Hl2) as Hl.
  rewrite (parse_email_at s l _ E Hl) in Hp.
  injection Hp as Eu Ed Hn Hx. subst u d.
  assert (Halias : all_chars local_char (l ++ "+" ++ tag) = true).
  { rewrite all_chars_app. simpl. now rewrite Hl2, Htag. }
  assert (Hsh : accepted_shape ((l ++ "+" ++ tag) ++ "@" ++ f ++ "." ++ r)).
  { exists (l ++ "+" ++ tag), f, r.
    split; [reflexivity |]. split; [destruct l; discriminate | auto 10]. }
  split; [exact (accepted_shape_valid _ Hsh) |].
  pose proof (parse_email_at _ (l ++ "+" ++ tag) (f ++ "." ++ r)
                (accepted_shape_trimmed _ Hsh) (local_part_no_at _ Halias))
    as Hp.
  rewrite <- Hn, <- Hx. exact Hp.
Qed.

Lemma plus_alias_witness :
  validate_email "joe+lists@example.org" = true /\
  parse_email "joe+lists@example.org" =
    Some ("joe+lists", "example.org", "example", "org").
Proof.
  apply (plus_alias " joe@example.org " "joe" "example.org" "example" "org" "lists");
    reflexivity.
Defined.

(** The domains that [COMMON_FIXES] suggests. *)
Lemma suggest_fix_values (d f : string) :
  suggest_fix d = Some f ->
  In f ["gmail.com"; "yahoo.com"; "hotmail.com"; "outlook.com"].
Proof.
  unfold suggest_fix, COMMON_FIXES. intros H.
  apply elem_of_list_to_map_2, list_elem_of_In in H. simpl in H.
  repeat (destruct H as [H | H]; [injection H as _ <-; simpl; tauto |]).
  destruct H.
Qed.

Lemma detect_personal (d : string) :
  has_keyword (lower d) -> detect_email_type d = "Personal Email".
Proof.
  intros H. apply has_keyword_spec in H. unfold detect_email_type. now rewrite H.
Qed.

(** X6: a typo suggestion for the domain of a validated address gives a
    validated address again; the suggested domain gets no further
    suggestion, is a key of the provider table, and is classified as
    Personal. *)
Theorem suggested_address_valid (s u d n x f : string) :
  validate_email s = true ->
  parse_email s = Some (u, d, n, x) ->
  suggest_fix d = Some f ->
  validate_email (u ++ "@" ++ f) = true /\
  suggest_fix f = None /\
  (exists val, In (f, val) mapping) /\
  detect_email_type f = "Personal Email".
Proof.
  intros Hv Hp Hf.
  destruct (validated_fields s Hv)
    as [l [f0 [r [_ [Hl1 [Hl2 [_ [_ [_ [_ E]]]]]]]]]].
  rewrite E in Hp. injection Hp as <- _ _ _.
  assert (Hshape : forall a b, f = a ++ "." ++ b -> a <> "" -> b <> "" ->
                     all_chars label_char a = true ->
                     all_chars tail_char b = true ->
                     validate_email (l ++ "@" ++ f) = true).
  { intros a b -> Ha Hb Ha' Hb'. apply accepted_shape_valid.
    exists l, a, b. auto 10. }
  apply suggest_fix_values in Hf. simpl in Hf.
  destruct Hf as [<- | [<- | [<- | [<- | []]]]].
  - split; [now apply (Hshape "gmail" "com") |].
    split; [reflexivity |]. split; [| reflexivity].
    eexists. left. reflexivity.
  - split; [now apply (Hshape "yahoo" "com") |].
    split; [reflexivity |]. split; [| reflexivity].
    eexists. right. right. left. reflexivity.
  - split; [now apply (Hshape "hotmail" "com") |].
    split; [reflexivity |]. split; [| reflexivity].
    eexists. do 4 right. left. reflexivity.
  - split; [now apply (Hshape "outlook" "com") |].
    split; [reflexivity |]. split; [| reflexivity].
    eexists. do 3 right. left. reflexivity.
Qed.

Lemma suggested_address_valid_witness :
  validate_email "joe@hotmail.com" = true /\ suggest_fix "hotmail.com" = None.
Proof.
  destruct (suggested_address_valid "joe@HotNail.com" "joe" "HotNail.com"
              "HotNail" "com" "hotmail.com") as [H1 [H2 _]];
    try reflexivity.
  split; [exact H1 | exact H2].
Defined.

(** Every key of the provider table but [live.com] holds a provider
    keyword. *)
Lemma mapping_key_keyword (key : string) (val : string * string * string) :
  In (key, val) mapping -> key <> "live.com" ->
  exists kw, In kw personal_keywords /\ str_in kw key = true.
Proof.
  intros Hin Hne. simpl in Hin.
  repeat (destruct Hin as [Hin | Hin];
          [injection Hin as <- _;
           first [ congruence
                 | exists "gmail"; split; [simpl; tauto | reflexivity]
                 | exists "yahoo"; split; [simpl; tauto | reflexivity]
                 | exists "hotmail"; split; [simpl; tauto | reflexivity]
                 | exists "outlook"; split; [simpl; tauto | reflexivity]
                 | exists "icloud"; split; [simpl; tauto | reflexivity]
                 | exists "aol"; split; [simpl; tauto | reflexivity]
                 | exists "protonmail"; split; [simpl; tauto | reflexivity]
                 | exists "gmx"; split; [simpl; tauto | reflexivity]
                 | exists "mail.com"; split; [simpl; tauto | reflexivity]
                 | exists "zoho"; split; [simpl; tauto | reflexivity] ] |]).
  destruct Hin.
Qed.

(** X7: the two classifiers agree on the provider table but for one key: a
    domain that hits a key of [mapping] other than [live.com] has the email
    type Personal, while [live.com], a Free/Consumer entry of the table,
    has the type Business / Organizational. *)
Theorem known_provider_is_personal :
  (forall d key val,
      In (key, val) mapping ->
      key_hit (lower d) key ->
      key <> "live.com" ->
      detect_email_type d = "Personal Email") /\
  provider_type (provider_insights "live.com") = "Free/Consumer" /\
  detect_email_type "live.com" = "Business / Organizational Email".
Proof.
  split; [| split; reflexivity].
  intros d key val Hin Hhit Hne. apply detect_personal.
  destruct (mapping_key_keyword key val Hin Hne) as [kw [Hkw Hsub]].
  apply str_in_spec in Hsub as [a [b Ekey]].
  assert (Hpre : exists pre, lower d = pre ++ key).
  { destruct Hhit as [-> | [pre ->]]; [now exists "" |].
    exists (pre ++ "."). now rewrite sapp_assoc. }
  destruct Hpre as [pre ->]. exists kw, (pre ++ a), b.
  split; [assumption |]. rewrite Ekey. now rewrite sapp_assoc.
Qed.

Lemma known_provider_is_personal_witness :
  detect_email_type "Mail.ProtonMail.com" = "Personal Email".
Proof.
  apply (proj1 known_provider_is_personal "Mail.ProtonMail.com" "protonmail.com"
           ("Proton Mail", "Privacy-focused", "End-to-end encrypted email service.")).
  - simpl. tauto.
  - right. exists "mail". reflexivity.
  - discriminate.
Defined.

(** ** Letter case *)

Lemma lower_char_idem (c : ascii) : lower_char (lower_char c) = lower_char c.
Proof. destruct c as [[] [] [] [] [] [] [] []]; reflexivity. Qed.

Lemma lower_idem (s : string) : lower (lower s) = lower s.
Proof.
  induction s as [|c s IH]; simpl; [reflexivity |].
  now rewrite lower_char_idem, IH.
Qed.

Lemma lower_nil (s : string) : lower s = "" <-> s = "".
Proof. destruct s; simpl; split; (reflexivity || discriminate). Qed.

(** X8: the classification ignores letter case: each classifier gives the
    same result on a domain (or extension) and on its lower-cased form. *)
Theorem classification_ignores_case (d x : string) :
  provider_insights (lower d) = provider_insights d /\
  detect_email_type (lower d) = detect_email_type d /\
  suggest_fix (lower d) = suggest_fix d /\
  tld_info (lower x) = tld_info x.
Proof.
  unfold provider_insights, detect_email_type, suggest_fix, tld_info.
  rewrite !lower_idem. repeat split; try reflexivity.
  destruct (String.eqb_spec (lower x) "") as [E | E];
    destruct (String.eqb_spec x "") as [E' | E']; try reflexivity.
  - apply (proj1 (lower_nil x)) in E. congruence.
  - subst x. destruct E. reflexivity.
Qed.

(** ** The bulk handler, once more *)

Lemma all_chars_rev_app (p : ascii -> bool) (s t : string) :
  all_chars p (String.rev_app s t) = all_chars p s && all_chars p t.
Proof.
  revert t. induction s as [|c s IH]; intros t; simpl; [reflexivity |].
  rewrite IH. simpl. now rewrite andb_assoc, (andb_comm (all_chars p s)).
Qed.

Lemma all_chars_strip (p : ascii -> bool) (s : string) :
  all_chars p s = true -> all_chars p (strip s) = true.
Proof.
  destruct (strip_spec s) as [pre [post [E _]]]. rewrite E at 1.
  rewrite !all_chars_app, !andb_true_iff. tauto.
Qed.

(** No line of [splitlines] holds a line boundary. *)
Lemma splitlines_from_single (cur s : string) :
  all_chars (fun c => negb (islinebreak c)) cur = true ->
  Forall (fun l => all_chars (fun c => negb (islinebreak c)) l = true)
    (splitlines_from cur s).
Proof.
  assert (Hrev : forall t,
             all_chars (fun c => negb (islinebreak c)) t = true ->
             all_chars (fun c => negb (islinebreak c)) (String.rev t) = true).
  { intros t H. unfold String.rev. now rewrite all_chars_rev_app, H. }
  remember (String.length s) as n eqn:En.
  assert (Hn : (String.length s <= n)%nat) by lia. clear En.
  revert s cur Hn. induction n as [|n IH]; intros s cur Hn Hcur.
  - destruct s; [| simpl in Hn; lia]. simpl.
    destruct cur; [constructor | constructor; [now apply Hrev | constructor]].
  - destruct s as [|c s]; simpl.
    + destruct cur; [constructor | constructor; [now apply Hrev | constructor]].
    + simpl in Hn. destruct (islinebreak c) eqn:Hc.
      * constructor; [now apply Hrev |].
        destruct s as [|c' s']; [constructor |]. simpl in Hn.
        destruct ((ord c =? 13)%N && (ord c' =? 10)%N).
        -- apply IH; [lia | reflexivity].
        -- apply IH; [simpl; lia | reflexivity].
      * apply IH; [lia |]. simpl. now rewrite Hc.
Qed.

(** X9: the lines that the bulk handler analyses are never empty, are
    already trimmed, and hold no line boundary. *)
Theorem bulk_lines_clean (bulk_input : string) :
  Forall (fun l => l <> "" /\ strip l = l /\
                   all_chars (fun c => negb (islinebreak c)) l = true)
    (bulk_lines bulk_input).
Proof.
  unfold bulk_lines, splitlines.
  pose proof (splitlines_from_single "" bulk_input eq_refl) as H.
  induction H as [|l ls Hl _ IH]; simpl; [constructor |].
  destruct (String.eqb_spec (strip l) "") as [E | E]; simpl; [exact IH |].
  constructor; [| exact IH].
  split; [exact E |]. split; [apply strip_idem | now apply all_chars_strip].
Qed.



(** X11: no partial records: the record of a line has exactly the twelve
    keys of a valid record when the line is valid, and exactly the keys
    [original] and [error] when it is not. *)
Theorem record_keys (e : string) (r : gmap string value) :
  analyze_line e = Some r ->
  dom r = if validate_email e
          then list_to_set valid_record_keys
          else list_to_set error_record_keys.
Proof.
  unfold analyze_line. destruct (validate_email e).
  - destruct (parse_email e) as [[[[u d] n] x] |]; [| discriminate].
    intros [= <-]. rewrite !dom_insert_L, dom_empty_L.
    unfold valid_record_keys. cbn [list_to_set foldr]. set_solver.
  - intros [= <-]. unfold error_record. rewrite dom_list_to_map_L.
    reflexivity.
Qed.

Lemma record_keys_witness :
  dom gmail_record = list_to_set (C := gset string) valid_record_keys.
Proof. apply (record_keys "a@gmail.com" gmail_record). vm_compute. reflexivity. Defined.

(** X12: whichever path of the [try] is taken, [valid_count] is the number
    of records without the key [error]; with the number of records that
    have the key it adds up to the number of records. *)
Theorem valid_count_partition (records : list (gmap string value)) :
  valid_count records =
    length (List.filter (fun r => negb (has_key "error" r)) records) /\
  (valid_count records + length (List.filter (has_key "error") records) =
   length records)%nat.
Proof.
  split; [apply valid_count_spec |]. rewrite valid_count_spec.
  induction records as [|r records IH]; simpl; [reflexivity |].
  destruct (has_key "error" r); simpl; lia.
Qed.

(** X13: in the record of a valid line the three lengths are those of the
    parts: the username and domain lengths and one for the [@] add up to
    the length of the trimmed line, the username has at least one
    character, and the domain at least two more than the extension. *)
Theorem valid_record_lengths (e : string) (r : gmap string value) :
  analyze_line e = Some r ->
  validate_email e = true ->
  exists a b c,
    r !! "username_len" = Some (VInt a) /\
    r !! "domain_len" = Some (VInt b) /\
    r !! "extension_len" = Some (VInt c) /\
    (a + b + 1 = Z.of_nat (String.length (strip e)))%Z /\
    (1 <= a)%Z /\ (0 <= c)%Z /\ (c + 2 <= b)%Z.
Proof.
  intros Hr Hv.
  destruct (validated_fields e Hv)
    as [l [f [t [E [Hl [_ [Hf [_ [_ [_ Hp]]]]]]]]]].
  unfold analyze_line in Hr. rewrite Hv, Hp in Hr. injection Hr as <-.
  exists (Z.of_nat (String.length l)),
    (Z.of_nat (String.length (f ++ "." ++ t))),
    (Z.of_nat (String.length (List.last (split "." t) ""))).
  cbn [list_to_map foldr uncurry fst snd]. unfold vlen.
  split; [now rewrite !lookup_insert_ne, lookup_insert_eq by discriminate |].
  split; [now rewrite !lookup_insert_ne, lookup_insert_eq by discriminate |].
  split; [now rewrite !lookup_insert_ne, lookup_insert_eq by discriminate |].
  pose proof (join_length_last "." (split "." t) (split_not_nil "." t)) as Hx.
  rewrite split_join in Hx.
  rewrite E, !str_app_length. simpl String.length.
  destruct l; [congruence |]. destruct f; [congruence |]. simpl String.length.
  lia.
Qed.

Lemma valid_record_lengths_witness :
  exists a b c,
    gmail_record !! "username_len" = Some (VInt a) /\
    gmail_record !! "domain_len" = Some (VInt b) /\
    gmail_record !! "extension_len" = Some (VInt c) /\
    (a + b + 1 = 11)%Z /\ (1 <= a)%Z /\ (0 <= c)%Z /\ (c + 2 <= b)%Z.
Proof.
  apply (valid_record_lengths "a@gmail.com" gmail_record);
    vm_compute; reflexivity.
Defined.

(** ** Lines of a text *)

Lemma ustr_split_not_nil (sep : N) (t : list N) : UStr.split sep t <> [].
Proof.
  destruct t as [|c t]; simpl; [discriminate |].
  destruct (c =? sep)%N; [discriminate |].
  destruct (UStr.split sep t); discriminate.
Qed.

Lemma ustr_join_split (sep : N) (t : list N) :
  UStr.join sep (UStr.split sep t) = t.
Proof.
  induction t as [|c t IH]; [reflexivity |]. cbn [UStr.split].
  pose proof (ustr_split_not_nil sep t) as Hne.
  destruct (N.eqb_spec c sep) as [-> | Hc];
    destruct (UStr.split sep t) as [|h [|h' r]]; try congruence;
    simpl in IH |- *; now rewrite <- IH.
Qed.

(** A line without newline in front of a newline is the first line. *)
Lemma ustr_split_cons_line (l t : list N) :
  nl_free l = true ->
  UStr.split UStr.NL (l ++ UStr.NL :: t) = l :: UStr.split UStr.NL t.
Proof.
  induction l as [|c l IH]; simpl; intros H; [reflexivity |].
  apply andb_true_iff in H as [Hc Hl].
  apply negb_true_iff in Hc. rewrite Hc. now rewrite (IH Hl).
Qed.

Lemma ustr_split_line (l : list N) :
  nl_free l = true -> UStr.split UStr.NL l = [l].
Proof.
  induction l as [|c l IH]; simpl; intros H; [reflexivity |].
  apply andb_true_iff in H as [Hc Hl].
  apply negb_true_iff in Hc. rewrite Hc. now rewrite (IH Hl).
Qed.

(** Splitting a join of lines without newline gives the lines back. *)
Lemma ustr_split_join (lines : list (list N)) :
  lines <> [] ->
  forallb nl_free lines = true ->
  UStr.split UStr.NL (UStr.join UStr.NL lines) = lines.
Proof.
  induction lines as [|l [|l' rest] IH]; intros Hne H; [congruence | |].
  - simpl in H. rewrite andb_true_r in H. now apply ustr_split_line.
  - cbn [forallb] in H. apply andb_true_iff in H as [Hl H].
    change (UStr.join UStr.NL (l :: l' :: rest))
      with (l ++ UStr.NL :: UStr.join UStr.NL (l' :: rest))%list.
    rewrite (ustr_split_cons_line _ _ Hl). f_equal.
    apply IH; [discriminate | exact H].
Qed.

Lemma nl_free_app (a b : list N) : nl_free (a ++ b)%list = nl_free a && nl_free b.
Proof. apply forallb_app. Qed.

Lemma nl_free_of_string (s : string) :
  str_in LF s = false -> nl_free (UStr.of_string s) = true.
Proof.
  induction s as [|c s IH]; [reflexivity |].
  unfold LF. rewrite nosep_cons. intros [Hc Hs]. simpl.
  rewrite (IH Hs), andb_true_r. apply negb_true_iff, N.eqb_neq.
  intros E. apply Hc. unfold ord in E.
  rewrite <- (ascii_N_embedding c), E. reflexivity.
Qed.

Lemma digits_nl_free (d : Decimal.uint) :
  nl_free (UStr.of_string (NilEmpty.string_of_uint d)) = true.
Proof. induction d; simpl; assumption || reflexivity. Qed.

Lemma str_of_int_nl_free (z : Z) : nl_free (UStr.str_of_int z) = true.
Proof.
  unfold UStr.str_of_int, NilZero.string_of_int, NilZero.string_of_uint.
  destruct (Z.to_int z) as [d | d].
  - destruct d; try apply digits_nl_free. reflexivity.
  - change (nl_free (45%N :: UStr.of_string
                       match d with
                       | Decimal.Nil => "0"
                       | _ => NilEmpty.string_of_uint d
                       end) = true).
    simpl. destruct d; try apply digits_nl_free. reflexivity.
Qed.

(** ** Pagination *)

(** From line [k] of a page, the loop puts the [i]-th of the remaining
    lines where line [k + i] of an unbroken column of sixty lines per page
    goes. *)
Lemma draw_lines_placed (lines : list (list N)) (k page : Z) :
  (0 <= k < 60)%Z ->
  placed page (draw_lines 792 40 lines (752 - 12 * k)) =
  imap (fun i line =>
          ((page + (k + Z.of_nat i) / 60)%Z,
           (752 - 12 * ((k + Z.of_nat i) mod 60))%Z, line)) lines.
Proof.
  revert k page. induction lines as [|line lines IH]; intros k page Hk;
    [reflexivity |].
  rewrite imap_cons. cbn [draw_lines].
  assert (H0 : ((k + Z.of_nat 0) / 60 = 0 /\ (k + Z.of_nat 0) mod 60 = k)%Z).
  { rewrite Z.add_0_r. split; [apply Z.div_small | apply Z.mod_small]; lia. }
  destruct H0 as [-> ->]. rewrite Z.add_0_r.
  destruct (Z.ltb_spec (752 - 12 * k - 12) 40) as [Hlt | Hge]; cbn [placed];
    f_equal.
  - assert (k = 59%Z) by lia. subst k.
    change (792 - 40)%Z with (752 - 12 * 0)%Z.
    rewrite IH by lia. apply imap_ext. intros i l _. simpl.
    replace (59 + Z.of_nat (S i))%Z with (Z.of_nat i + 1 * 60)%Z by lia.
    rewrite Z.div_add, Z.mod_add, !Z.add_0_l by lia.
    do 2 f_equal. lia.
  - replace (752 - 12 * k - 12)%Z with (752 - 12 * (k + 1))%Z by lia.
    rewrite IH by lia. apply imap_ext. intros i l _. simpl.
    replace (k + 1 + Z.of_nat i)%Z with (k + Z.of_nat (S i))%Z by lia.
    reflexivity.
Qed.

Lemma draw_lines_show_pages (lines : list (list N)) (k : nat) :
  (k < 60)%nat ->
  show_pages (draw_lines 792 40 lines (752 - 12 * Z.of_nat k)) =
  ((k + length lines) / 60)%nat.
Proof.
  revert k. induction lines as [|line lines IH]; intros k Hk.
  - cbn [draw_lines show_pages length]. rewrite Nat.add_0_r.
    symmetry. now apply Nat.div_small.
  - cbn [draw_lines show_pages length].
    destruct (Z.ltb_spec (752 - 12 * Z.of_nat k - 12) 40) as [Hlt | Hge];
      cbn [show_pages].
    + assert (k = 59)%nat by lia. subst k.
      change (792 - 40)%Z with (752 - 12 * Z.of_nat 0)%Z.
      rewrite IH by lia.
      replace (59 + S (length lines))%nat with (length lines + 1 * 60)%nat by lia.
      rewrite Nat.div_add by lia. cbn [Nat.add length]. lia.
    + replace (752 - 12 * Z.of_nat k - 12)%Z
        with (752 - 12 * Z.of_nat (S k))%Z by lia.
      rewrite IH by lia. f_equal. lia.
Qed.

Lemma placed_app_save (page : Z) (calls : list canvas_call) :
  placed page (calls ++ [Save]) = placed page calls.
Proof.
  revert page. induction calls as [|[x y t | |] calls IH]; intros page; simpl;
    now rewrite ?IH.
Qed.

Lemma show_pages_app_save (calls : list canvas_call) :
  show_pages (calls ++ [Save]) = show_pages calls.
Proof.
  induction calls as [|[x y t | |] calls IH]; simpl; now rewrite ?IH.
Qed.

Lemma imap_snd {A B : Type} (f : nat -> B) (l : list A) :
  map snd (imap (fun i x => (f i, x)) l) = l.
Proof.
  revert f. induction l as [|x l IH]; intros f; [reflexivity |].
  rewrite imap_cons. simpl. f_equal. apply (IH (f ∘ S)).
Qed.

(** X14: the layout of the PDF.  Without reportlab [make_pdf_bytes]
    raises.  With it, line [i] of the text is drawn on page [i / 60] at the
    height [752 - 12 * (i mod 60)]: sixty lines a page, from 752 points down
    to 44, never below the bottom margin of 40. *)
Theorem pdf_layout (report_text : list N) :
  make_pdf_bytes false report_text = None /\
  exists calls,
    make_pdf_bytes true report_text = Some calls /\
    placed 0 calls =
      imap (fun i line =>
              ((Z.of_nat i / 60)%Z, (752 - 12 * (Z.of_nat i mod 60))%Z, line))
        (UStr.split UStr.NL report_text) /\
    Forall (fun d => (44 <= snd (fst d) <= 752)%Z) (placed 0 calls).
Proof.
  split; [reflexivity |]. eexists. split; [reflexivity |].
  rewrite placed_app_save.
  change (792 - 40)%Z with (752 - 12 * 0)%Z.
  rewrite draw_lines_placed by lia. split; [reflexivity |].
  apply List.Forall_forall. intros d Hd.
  apply list_elem_of_In, elem_of_lookup_imap in Hd as [i [line [-> _]]].
  simpl. pose proof (Z.mod_pos_bound (0 + Z.of_nat i) 60). lia.
Qed.

(** X15: the PDF loses no text and ends cleanly: the texts drawn, in order
    and joined by newlines, are the report text; the last call is [save];
    and [showPage] is called once per sixty lines, so that a text of an
    exact multiple of sixty lines ends on [showPage] with no line after
    it. *)
Theorem pdf_text (report_text : list N) :
  exists calls,
    make_pdf_bytes true report_text = Some calls /\
    UStr.join UStr.NL (map snd (placed 0 calls)) = report_text /\
    List.last calls ShowPage = Save /\
    show_pages calls = (length (UStr.split UStr.NL report_text) / 60)%nat.
Proof.
  eexists. split; [reflexivity |].
  rewrite placed_app_save, show_pages_app_save, last_last.
  change (792 - 40)%Z with (752 - 12 * 0)%Z.
  rewrite draw_lines_placed by lia. split; [| split; [reflexivity |]].
  - rewrite (imap_snd (fun i => ((0 + (0 + Z.of_nat i) / 60)%Z,
                                 (752 - 12 * ((0 + Z.of_nat i) mod 60))%Z))).
    apply ustr_join_split.
  - change (752 - 12 * 0)%Z with (752 - 12 * Z.of_nat 0)%Z.
    now rewrite draw_lines_show_pages by lia.
Qed.

(** ** The report *)

Lemma provider_insights_cases (d : string) :
  In (provider_insights d)
    (map (fun kv => info_of (snd kv)) mapping
       ++ [edu_entry; gov_entry; custom_entry])%list.
Proof.
  unfold provider_insights. apply in_or_app.
  destruct (first_match (lower d) mapping) as [val |] eqn:E.
  - left. apply first_match_in in E as [key Hin].
    apply in_map_iff. now exists (key, val).
  - right. destruct (endswith (lower d) ".edu"); [now left |].
    destruct (endswith (lower d) ".gov"); [right; now left |].
    right; right; now left.
Qed.

Lemma tld_info_cases (x : string) :
  In (tld_info x)
    [ "No TLD / local"; "Unknown or custom TLD"; "Commercial (global)";
      "Organization (non-profit)"; "Network / ISP";
      "Educational institutions"; "Government"; "India (country code TLD)";
      "United Kingdom (country code TLD)"; "United States (country code TLD)";
      "Canada (country code TLD)"; "Australia (country code TLD)" ].
Proof.
  unfold tld_info, dict_get. destruct (String.eqb x ""); [now left |].
  destruct (TLD_INFO !! lower x) as [v |] eqn:E; [| right; now left].
  unfold TLD_INFO in E.
  apply elem_of_list_to_map_2, list_elem_of_In in E. simpl in E.
  repeat (destruct E as [E | E]; [injection E as _ <-; simpl; tauto |]).
  destruct E.
Qed.

Lemma forallb_In {A : Type} (p : A -> bool) (l : list A) (x : A) :
  forallb p l = true -> In x l -> p x = true.
Proof. intros H. now apply forallb_forall. Qed.

(** No text that the classifiers return holds a newline. *)
Lemma classifier_texts_one_line (d x : string) :
  str_in LF (provider_name (provider_insights d)) = false /\
  str_in LF (provider_type (provider_insights d)) = false /\
  str_in LF (notes (provider_insights d)) = false /\
  str_in LF (detect_email_type d) = false /\
  str_in LF (tld_info x) = false.
Proof.
  pose proof (provider_insights_cases d) as Hp.
  pose proof (detect_email_type_cases d) as Ht.
  pose proof (tld_info_cases x) as Hx.
  repeat split; apply negb_true_iff.
  - refine (forallb_In (fun i => negb (str_in LF (provider_name i))) _ _ _ Hp).
    reflexivity.
  - refine (forallb_In (fun i => negb (str_in LF (provider_type i))) _ _ _ Hp).
    reflexivity.
  - refine (forallb_In (fun i => negb (str_in LF (notes i))) _ _ _ Hp).
    reflexivity.
  - refine (forallb_In (fun t => negb (str_in LF t)) _ _ _ Ht). reflexivity.
  - refine (forallb_In (fun t => negb (str_in LF t)) _ _ _ Hx). reflexivity.
Qed.

(** The report of a call whose six lookups succeed. *)
Lemma make_report_some
    (original_email username domain_full domain_name extension : string)
    (lengths : gmap string Z) (provider_info : gmap string string)
    (email_type tld_description timestamp : string)
    (a b c : Z) (p_name p_type p_notes : string) :
  lengths !! "username" = Some a ->
  lengths !! "domain_full" = Some b ->
  lengths !! "extension" = Some c ->
  provider_info !! "provider_name" = Some p_name ->
  provider_info !! "provider_type" = Some p_type ->
  provider_info !! "notes" = Some p_notes ->
  make_report original_email username domain_full domain_name extension
    lengths provider_info email_type tld_description timestamp =
  Some (UStr.join UStr.NL
          (report_lines original_email username domain_full domain_name
             extension a b c p_name p_type p_notes
             email_type tld_description timestamp)).
Proof.
  intros Ha Hb Hc Hn Ht Ho. unfold make_report.
  now rewrite Ha, Hb, Hc, Hn, Ht, Ho.
Qed.

(** The thirty lines of a report whose fields hold no newline. *)
Lemma report_lines_split
    (original_email username domain_full domain_name extension : string)
    (a b c : Z) (p_name p_type p_notes : string)
    (email_type tld_description timestamp : string) :
  Forall (fun s => str_in LF s = false)
    [ original_email; username; domain_full; domain_name; extension;
      p_name; p_type; p_notes; email_type; tld_description; timestamp ] ->
  UStr.split UStr.NL
    (UStr.join UStr.NL
       (report_lines original_email username domain_full domain_name
          extension a b c p_name p_type p_notes
          email_type tld_description timestamp)) =
  report_lines original_email username domain_full domain_name
    extension a b c p_name p_type p_notes
    email_type tld_description timestamp.
Proof.
  intros HF. rewrite List.Forall_forall in HF.
  apply ustr_split_join; [discriminate |].
  unfold report_lines. cbn [forallb]. rewrite !nl_free_app.
  repeat (apply andb_true_intro; split);
    first [ reflexivity
          | apply str_of_int_nl_free
          | apply nl_free_of_string, HF; simpl; tauto ].
Qed.

Lemma make_report_raises
    (original_email username domain_full domain_name extension : string)
    (lengths : gmap string Z) (provider_info : gmap string string)
    (email_type tld_description timestamp : string) :
  make_report original_email username domain_full domain_name extension
    lengths provider_info email_type tld_description timestamp = None <->
  lengths !! "username" = None \/ lengths !! "domain_full" = None \/
  lengths !! "extension" = None \/
  provider_info !! "provider_name" = None \/
  provider_info !! "provider_type" = None \/
  provider_info !! "notes" = None.
Proof.
  unfold make_report.
  destruct (lengths !! "username"), (lengths !! "domain_full"),
    (lengths !! "extension"), (provider_info !! "provider_name"),
    (provider_info !! "provider_type"), (provider_info !! "notes");
    split; intros H; try discriminate; try tauto;
    destruct H as [H | [H | [H | [H | [H | H]]]]]; discriminate.
Qed.

Lemma make_report_split
    (original_email username domain_full domain_name extension : string)
    (lengths : gmap string Z) (provider_info : gmap string string)
    (email_type tld_description timestamp : string) (text : list N) :
  make_report original_email username domain_full domain_name extension
    lengths provider_info email_type tld_description timestamp = Some text ->
  Forall (fun s => str_in LF s = false)
    [ original_email; username; domain_full; domain_name; extension;
      email_type; tld_description; timestamp ] ->
  (forall key v,
      In key ["provider_name"; "provider_type"; "notes"] ->
      provider_info !! key = Some v -> str_in LF v = false) ->
  length (UStr.split UStr.NL text) = 30%nat /\
  List.nth 1 (UStr.split UStr.NL text) [] =
    (UStr.of_string "Generated: " ++ UStr.of_string timestamp)%list /\
  List.nth 3 (UStr.split UStr.NL text) [] =
    (UStr.of_string "Original email: " ++ UStr.of_string original_email)%list.
Proof.
  intros Hr HF HP.
  destruct (lengths !! "username") as [a |] eqn:Ha;
    [| unfold make_report in Hr; now rewrite Ha in Hr].
  destruct (lengths !! "domain_full") as [b |] eqn:Hb;
    [| unfold make_report in Hr; now rewrite Ha, Hb in Hr].
  destruct (lengths !! "extension") as [c |] eqn:Hc;
    [| unfold make_report in Hr; now rewrite Ha, Hb, Hc in Hr].
  destruct (provider_info !! "provider_name") as [pn |] eqn:Hn;
    [| unfold make_report in Hr; now rewrite Ha, Hb, Hc, Hn in Hr].
  destruct (provider_info !! "provider_type") as [pt |] eqn:Ht;
    [| unfold make_report in Hr; now rewrite Ha, Hb, Hc, Hn, Ht in Hr].
  destruct (provider_info !! "notes") as [po |] eqn:Ho;
    [| unfold make_report in Hr; now rewrite Ha, Hb, Hc, Hn, Ht, Ho in Hr].
  rewrite (make_report_some _ _ _ _ _ _ _ _ _ _ _ _ _ _ _ _ Ha Hb Hc Hn Ht Ho)
    in Hr.
  assert (Et : text =
               UStr.join UStr.NL
                 (report_lines original_email username domain_full domain_name
                    extension a b c pn pt po
                    email_type tld_description timestamp)) by congruence.
  subst text. clear Hr.
  rewrite report_lines_split; [repeat split |].
  rewrite List.Forall_forall in HF.
  apply List.Forall_forall. intros t Hin. simpl in Hin.
  destruct Hin as [<- | [<- | [<- | [<- | [<- | Hin]]]]];
    try (apply HF; simpl; tauto).
  destruct Hin as [<- | [<- | [<- | Hin]]].
  - apply (HP "provider_name"); [simpl; tauto | exact Hn].
  - apply (HP "provider_type"); [simpl; tauto | exact Ht].
  - apply (HP "notes"); [simpl; tauto | exact Ho].
  - destruct Hin as [<- | [<- | [<- | []]]]; apply HF; simpl; tauto.
Qed.

(** X16: [make_report] raises exactly when one of the keys [username],
    [domain_full], [extension] is missing from [lengths] or one of the keys
    [provider_name], [provider_type], [notes] from [provider_info];
    otherwise, when no field holds a newline, the report has thirty lines,
    the second giving the timestamp and the fourth the original email. *)
Theorem make_report_lines
    (original_email username domain_full domain_name extension : string)
    (lengths : gmap string Z) (provider_info : gmap string string)
    (email_type tld_description timestamp : string) :
  (make_report original_email username domain_full domain_name extension
     lengths provider_info email_type tld_description timestamp = None <->
   lengths !! "username" = None \/ lengths !! "domain_full" = None \/
   lengths !! "extension" = None \/
   provider_info !! "provider_name" = None \/
   provider_info !! "provider_type" = None \/
   provider_info !! "notes" = None) /\
  (forall text,
      make_report original_email username domain_full domain_name extension
        lengths provider_info email_type tld_description timestamp
        = Some text ->
      Forall (fun s => str_in LF s = false)
        [ original_email; username; domain_full; domain_name; extension;
          email_type; tld_description; timestamp ] ->
      (forall key v,
          In key ["provider_name"; "provider_type"; "notes"] ->
          provider_info !! key = Some v -> str_in LF v = false) ->
      length (UStr.split UStr.NL text) = 30%nat /\
      List.nth 1 (UStr.split UStr.NL text) [] =
        (UStr.of_string "Generated: " ++ UStr.of_string timestamp)%list /\
      List.nth 3 (UStr.split UStr.NL text) [] =
        (UStr.of_string "Original email: "
           ++ UStr.of_string original_email)%list).
Proof.
  split; [apply make_report_raises | intros text; apply make_report_split].
Qed.

Lemma make_report_lines_witness :
  make_report "a@b.c" "a" "b.c" "b" "c"
    (list_to_map [("username", 1); ("domain_full", 3); ("extension", 1)]%Z)
    (list_to_map [("provider_name", "Custom / Organization");
                  ("notes", "none")])
    "Business / Organizational Email" "Unknown or custom TLD"
    "2026-11-03 10:00:00" = None /\
  forall text,
    make_report "a@b.c" "a" "b.c" "b" "c"
      (list_to_map [("username", 1); ("domain_full", 3); ("extension", 1)]%Z)
      (info_dict custom_entry)
      "Business / Organizational Email" "Unknown or custom TLD"
      "2026-11-03 10:00:00" = Some text ->
    length (UStr.split UStr.NL text) = 30%nat.
Proof.
  split.
  - apply (proj1 (make_report_lines "a@b.c" "a" "b.c" "b" "c"
                    (list_to_map [("username", 1); ("domain_full", 3);
                                  ("extension", 1)]%Z)
                    (list_to_map [("provider_name", "Custom / Organization");
                                  ("notes", "none")])
                    "Business / Organizational Email" "Unknown or custom TLD"
                    "2026-11-03 10:00:00")).
    do 4 right. left. reflexivity.
  - intros text H.
    apply (proj2 (make_report_lines "a@b.c" "a" "b.c" "b" "c"
                    (list_to_map [("username", 1); ("domain_full", 3);
                                  ("extension", 1)]%Z) (info_dict custom_entry)
                    "Business / Organizational Email" "Unknown or custom TLD"
                    "2026-11-03 10:00:00") text H).
    + repeat constructor.
    + intros key v Hin Hv. simpl in Hin.
      destruct Hin as [<- | [<- | [<- | []]]]; vm_compute in Hv;
        injection Hv as <-; reflexivity.
Defined.

(** ** The single-email handler *)

Lemma validate_email_strip (s : string) :
  validate_email (strip s) = validate_email s.
Proof.
  apply eq_true_iff_eq. rewrite !validate_email_shape. now rewrite strip_idem.
Qed.

Lemma nosep_app (sep : ascii) (a b : string) :
  str_in (String sep "") a = false -> str_in (String sep "") b = false ->
  str_in (String sep "") (a ++ b) = false.
Proof.
  intros Ha Hb. induction a as [|c a IH]; [exact Hb |].
  apply nosep_cons in Ha as [Hc Ha]. simpl append.
  apply nosep_cons. auto.
Qed.

(** The lookups that the handler's two dictionaries answer. *)
Lemma lengths_lookup_username (u d x : string) :
  (list_to_map [("username", len u); ("domain_full", len d);
                ("extension", len x)] : gmap string Z) !! "username"
  = Some (len u).
Proof. reflexivity. Qed.

Lemma lengths_lookup_domain_full (u d x : string) :
  (list_to_map [("username", len u); ("domain_full", len d);
                ("extension", len x)] : gmap string Z) !! "domain_full"
  = Some (len d).
Proof. reflexivity. Qed.

Lemma lengths_lookup_extension (u d x : string) :
  (list_to_map [("username", len u); ("domain_full", len d);
                ("extension", len x)] : gmap string Z) !! "extension"
  = Some (len x).
Proof. reflexivity. Qed.

Lemma info_dict_name (info : provider_info) :
  info_dict info !! "provider_name" = Some (provider_name info).
Proof. reflexivity. Qed.

Lemma info_dict_type (info : provider_info) :
  info_dict info !! "provider_type" = Some (provider_type info).
Proof. reflexivity. Qed.

Lemma info_dict_notes (info : provider_info) :
  info_dict info !! "notes" = Some (notes info).
Proof. reflexivity. Qed.

Lemma make_pdf_bytes_calls (text : list N) :
  make_pdf_bytes true text =
  Some (draw_lines 792 40 (UStr.split UStr.NL text) (752 - 12 * Z.of_nat 0)
          ++ [Save])%list.
Proof. reflexivity. Qed.

(** The texts of a validated address and of its classification hold no
    newline. *)
Lemma validated_one_line (e : string) :
  validate_email e = true ->
  exists u d n x,
    parse_email e = Some (u, d, n, x) /\
    Forall (fun s => str_in LF s = false)
      [ strip e; u; d; n; x;
        provider_name (provider_insights d);
        provider_type (provider_insights d);
        notes (provider_insights d);
        detect_email_type d; tld_info x ].
Proof.
  intros Hv.
  destruct (validated_fields e Hv)
    as [l [f [r [E [_ [Hl [_ [Hf [_ [Hr Hp]]]]]]]]]].
  exists l, (f ++ "." ++ r), f, (List.last (split "." r) "").
  split; [exact Hp |].
  assert (Hl' : str_in LF l = false)
    by now apply (nosep_all_chars "010" local_char).
  assert (Hf' : str_in LF f = false)
    by now apply (nosep_all_chars "010" label_char).
  assert (Hr' : str_in LF r = false)
    by now apply (nosep_all_chars "010" tail_char).
  assert (Hd : str_in LF (f ++ "." ++ r) = false)
    by (apply nosep_app; [exact Hf' | apply (nosep_app "010" "." r eq_refl Hr')]).
  assert (Hx : str_in LF (List.last (split "." r) "") = false).
  { apply (nosep_all_chars "010" tail_char); [reflexivity |].
    apply (Forall_last (fun g => all_chars tail_char g = true));
      [now apply split_all_chars | apply split_not_nil]. }
  destruct (classifier_texts_one_line (f ++ "." ++ r) (List.last (split "." r) ""))
    as [H1 [H2 [H3 [H4 H5]]]].
  repeat constructor; try assumption.
  rewrite E. apply nosep_app; [exact Hl' |].
  apply (nosep_app "010" "@" _ eq_refl Hd).
Qed.

(** X17: the single-email handler raises on no input.  It shows the
    warning exactly on a blank input and the rejection exactly on a
    non-blank input that the validator refuses.  On a validated input the
    PDF is made exactly when reportlab is available, and for a timestamp
    without newline the report has thirty lines and the PDF one page:
    thirty draws and no [showPage]. *)
Theorem analyze_single_total (REPORTLAB_AVAILABLE : bool)
    (email_input timestamp : string) :
  exists outcome,
    analyze_single REPORTLAB_AVAILABLE email_input timestamp = Some outcome /\
    (outcome = EmptyInput <-> strip email_input = "") /\
    (outcome = InvalidFormat <->
     strip email_input <> "" /\ validate_email email_input = false) /\
    (forall a, outcome = Analysed a ->
       validate_email email_input = true /\
       (REPORTLAB_AVAILABLE = false -> a_pdf a = None) /\
       (REPORTLAB_AVAILABLE = true -> exists calls, a_pdf a = Some calls) /\
       (str_in LF timestamp = false ->
        length (UStr.split UStr.NL (a_report_text a)) = 30%nat /\
        forall calls, a_pdf a = Some calls ->
                      show_pages calls = 0%nat /\
                      length (placed 0 calls) = 30%nat)).
Proof.
  unfold analyze_single.
  rewrite (validate_email_strip email_input).
  destruct (String.eqb_spec (strip email_input) "") as [E | E].
  { eexists. split; [reflexivity |]. split; [tauto |].
    split; [| discriminate]. split; [discriminate | tauto]. }
  destruct (validate_email email_input) eqn:Hv; cbn [negb].
  2:{ eexists. split; [reflexivity |]. split; [| split; [tauto | discriminate]].
      split; [discriminate | congruence]. }
  rewrite <- validate_email_strip in Hv.
  destruct (validated_one_line _ Hv) as [u [d [n [x [Hp HF]]]]].
  rewrite Hp.
  rewrite (make_report_some _ _ _ _ _ _ _ _ _ _ _ _ _ _ _ _
             (lengths_lookup_username u d x) (lengths_lookup_domain_full u d x)
             (lengths_lookup_extension u d x)
             (info_dict_name (provider_insights d))
             (info_dict_type (provider_insights d))
             (info_dict_notes (provider_insights d))).
  match goal with
  | |- context [UStr.join UStr.NL ?l] =>
      remember (UStr.join UStr.NL l) as text eqn:Et
  end.
  eexists. split; [reflexivity |].
  split; [split; [discriminate | congruence] |].
  split; [split; [discriminate | intros [_ H]; discriminate] |].
  intros a [= <-]. cbn [a_pdf a_report_text].
  split; [reflexivity |]. split; [now intros -> |].
  split; [intros ->; rewrite make_pdf_bytes_calls; eauto |].
  intros Hts.
  rewrite strip_idem in HF.
  assert (Hsplit :
            Forall (fun s => str_in LF s = false)
              [ strip email_input; u; d; n; x;
                provider_name (provider_insights d);
                provider_type (provider_insights d);
                notes (provider_insights d);
                detect_email_type d; tld_info x; timestamp ]).
  { apply List.Forall_forall. intros t Ht.
    rewrite List.Forall_forall in HF.
    simpl in Ht. destruct Ht as [<- | Ht]; [apply HF; simpl; tauto |].
    repeat (destruct Ht as [<- | Ht]; [apply HF; simpl; tauto |]).
    destruct Ht as [<- | []]. exact Hts. }
  assert (Hlen : length (UStr.split UStr.NL text) = 30%nat).
  { rewrite Et, (report_lines_split _ _ _ _ _ _ _ _ _ _ _ _ _ _ Hsplit).
    reflexivity. }
  split; [exact Hlen |].
  intros calls Hc. destruct REPORTLAB_AVAILABLE; [| discriminate].
  rewrite make_pdf_bytes_calls in Hc. injection Hc as <-.
  rewrite show_pages_app_save, placed_app_save.
  rewrite draw_lines_show_pages by lia.
  change (752 - 12 * Z.of_nat 0)%Z with (752 - 12 * 0)%Z.
  rewrite draw_lines_placed by lia.
  rewrite length_imap, Hlen. split; reflexivity.
Qed.

Lemma analyze_single_total_witness :
  exists a calls,
    analyze_single true " a@gmail.com " "2026-11-03 10:00:00" =
      Some (Analysed a) /\
    a_pdf a = Some calls /\
    length (UStr.split UStr.NL (a_report_text a)) = 30%nat /\
    show_pages calls = 0%nat.
Proof.
  destruct (analyze_single_total true " a@gmail.com " "2026-11-03 10:00:00")
    as [outcome [Ho [H1 [H2 H3]]]].
  destruct outcome as [| | a].
  - destruct H1 as [H1 _]. specialize (H1 eq_refl). discriminate.
  - destruct H2 as [H2 _]. destruct (H2 eq_refl) as [_ H]. discriminate.
  - destruct (H3 a eq_refl) as [_ [_ [Hpdf Hts]]].
    destruct (Hpdf eq_refl) as [calls Hc].
    destruct (Hts eq_refl) as [Hlen Hpages].
    exists a, calls. split; [exact Ho |]. split; [exact Hc |].
    split; [exact Hlen | exact (proj1 (Hpages calls Hc))].
Defined.

(** X18: the two handlers agree: for a validated input, the record that
    the bulk loop builds for the trimmed line holds the username, domain,
    extension, provider name, email type, TLD description, creation year
    and lengths that the single-email handler computes, and no key
    [error]. *)
Theorem single_matches_bulk (REPORTLAB_AVAILABLE : bool)
    (email_input timestamp : string) (a : analysis) (r : gmap string value) :
  analyze_single REPORTLAB_AVAILABLE email_input timestamp = Some (Analysed a) ->
  analyze_line (strip email_input) = Some r ->
  r !! "username" = Some (VStr (a_username a)) /\
  r !! "domain" = Some (VStr (a_domain_full a)) /\
  r !! "extension" = Some (VStr (a_extension a)) /\
  r !! "provider" = Some (VStr (provider_name (a_provider a))) /\
  r !! "type" = Some (VStr (a_email_type a)) /\
  r !! "tld_info" = Some (VStr (a_tld_description a)) /\
  r !! "creation_year_est" = Some (VInt (a_creation_year a)) /\
  r !! "username_len" = VInt <$> a_lengths a !! "username" /\
  r !! "domain_len" = VInt <$> a_lengths a !! "domain_full" /\
  r !! "extension_len" = VInt <$> a_lengths a !! "extension" /\
  r !! "suggest_fix" =
    Some (VStr match a_fix a with
               | Some f => a_username a ++ "@" ++ f
               | None => ""
               end) /\
  r !! "error" = None.
Proof.
  unfold analyze_single, analyze_line. intros Ha Hr.
  destruct (String.eqb (strip email_input) ""); [discriminate |].
  destruct (validate_email (strip email_input)); [| discriminate].
  cbn [negb] in Ha.
  destruct (parse_email (strip email_input)) as [[[[u d] n] x] |];
    [| discriminate].
  destruct (make_report _ _ _ _ _ _ _ _ _ _) as [text |]; [| discriminate].
  injection Ha as <-. injection Hr as <-.
  cbn [a_username a_domain_full a_extension a_provider a_email_type
       a_tld_description a_creation_year a_lengths a_fix].
  cbn [list_to_map foldr uncurry fst snd]. unfold vlen, len.
  repeat split;
    try (now rewrite !lookup_insert_ne, lookup_insert_eq by discriminate).
  rewrite lookup_insert_eq. do 2 f_equal.
  destruct (suggest_fix d) as [f |] eqn:Hf; [| reflexivity].
  apply suggest_fix_values in Hf. simpl in Hf.
  destruct Hf as [<- | [<- | [<- | [<- | []]]]]; reflexivity.
Qed.

Lemma single_matches_bulk_witness :
  gmail_record !! "provider" = Some (VStr "Google Mail") /\
  gmail_record !! "error" = None.
Proof.
  destruct (analyze_single true " a@gmail.com " "2026-11-03 10:00:00")
    as [[| | a] |] eqn:Ha; try (vm_compute in Ha; discriminate).
  destruct (single_matches_bulk true " a@gmail.com " "2026-11-03 10:00:00"
              a gmail_record Ha)
    as [_ [_ [_ [Hp [_ [_ [_ [_ [_ [_ [_ He]]]]]]]]]]].
  { vm_compute. reflexivity. }
  split; [| exact He]. rewrite Hp.
  vm_compute in Ha. injection Ha as <-. reflexivity.
Defined.

(** ** The download name *)

Lemma all_chars_impl (p q : ascii -> bool) (s : string) :
  (forall c, p c = true -> q c = true) ->
  all_chars p s = true -> all_chars q s = true.
Proof.
  intros Hpq. induction s as [|c s IH]; simpl; [reflexivity |].
  rewrite !andb_true_iff. intros [Hc Hs]. auto.
Qed.

(** Replacing one character: what is left is the replacement text and the
    other characters. *)
Lemma replace_char_all_chars (a : ascii) (new s : string) (p : ascii -> bool) :
  all_chars p new = true ->
  all_chars (fun c => Ascii.eqb a c || p c) s = true ->
  all_chars p (replace (String a "") new s) = true.
Proof.
  intros Hnew. unfold replace.
  induction s as [|c s IH]; [reflexivity |].
  simpl all_chars. rewrite andb_true_iff. intros [Hc Hs].
  cbn [replace_from startswith String.length Nat.sub].
  rewrite andb_true_r. destruct (Ascii.eqb a c); simpl in Hc.
  - rewrite all_chars_app, Hnew. now apply IH.
  - simpl. rewrite Hc. now apply IH.
Qed.

(** X19: the name of the TXT download for a username of local-part
    characters holds no space and no colon, whatever the timestamp; for a
    timestamp of digits, hyphens, spaces and colons it is made of letters,
    digits and [. _ + -] only, so it holds no path separator. *)
Theorem safe_fname_safe (username timestamp : string) :
  all_chars local_char username = true ->
  str_in " " (safe_fname username timestamp) = false /\
  str_in ":" (safe_fname username timestamp) = false /\
  (all_chars timestamp_char timestamp = true ->
   all_chars local_char (safe_fname username timestamp) = true /\
   str_in "/" (safe_fname username timestamp) = false).
Proof.
  intros Hu.
  assert (Hgen : forall p : ascii -> bool,
             (forall c, local_char c = true -> p c = true) ->
             all_chars (fun c => Ascii.eqb " " c || (Ascii.eqb ":" c || p c))
               timestamp = true ->
             all_chars p (safe_fname username timestamp) = true).
  { intros p Hp Hts. unfold safe_fname.
    rewrite !all_chars_app.
    rewrite (all_chars_impl local_char p "email_slicer_report_" Hp eq_refl).
    rewrite (all_chars_impl local_char p username Hp Hu).
    rewrite (all_chars_impl local_char p "_" Hp eq_refl).
    rewrite (all_chars_impl local_char p ".txt" Hp eq_refl).
    rewrite !andb_true_r. cbn [andb].
    apply replace_char_all_chars; [reflexivity |].
    apply replace_char_all_chars; [| exact Hts].
    cbn [all_chars]. rewrite (Hp "_"%char eq_refl). reflexivity. }
  assert (Hany : all_chars
                   (fun c => negb (Ascii.eqb c " ") && negb (Ascii.eqb c ":"))
                   (safe_fname username timestamp) = true).
  { apply Hgen.
    - intros c. destruct c as [[] [] [] [] [] [] [] []];
        (reflexivity || discriminate).
    - apply (all_chars_impl (fun _ => true)).
      + intros c _. destruct c as [[] [] [] [] [] [] [] []]; reflexivity.
      + clear. induction timestamp as [|c s IH]; [reflexivity | exact IH]. }
  split; [| split].
  - apply (nosep_all_chars " "
             (fun c => negb (Ascii.eqb c " ") && negb (Ascii.eqb c ":")));
      [reflexivity | exact Hany].
  - apply (nosep_all_chars ":"
             (fun c => negb (Ascii.eqb c " ") && negb (Ascii.eqb c ":")));
      [reflexivity | exact Hany].
  - intros Hts.
    assert (Hloc : all_chars local_char (safe_fname username timestamp) = true).
    { apply Hgen; [auto |].
      apply (all_chars_impl timestamp_char); [| exact Hts].
      intros c. destruct c as [[] [] [] [] [] [] [] []];
        (reflexivity || discriminate). }
    split; [exact Hloc |].
    now apply (nosep_all_chars "/" local_char).
Qed.

Lemma safe_fname_safe_witness :
  safe_fname "joe.bloggs+x" "2026-11-03 10:00:00" =
    "email_slicer_report_joe.bloggs+x_2026-11-03_100000.txt" /\
  str_in " " (safe_fname "joe.bloggs+x" "2026-11-03 10:00:00") = false /\
  str_in "/" (safe_fname "joe.bloggs+x" "2026-11-03 10:00:00") = false.
Proof.
  destruct (safe_fname_safe "joe.bloggs+x" "2026-11-03 10:00:00" eq_refl)
    as [H1 [_ H3]].
  split; [reflexivity |]. split; [exact H1 |].
  exact (proj2 (H3 eq_refl)).
Defined.

(** ** Institutional domains *)

Lemma snoc_last_eq (a b : string) (c c' : ascii) :
  a ++ String c "" = b ++ String c' "" -> c = c'.
Proof.
  revert b. induction a as [|x a IH]; intros b H.
  - destruct b as [|y b]; simpl in H; [now injection H |].
    injection H as _ H. symmetry in H. now apply snoc_not_nil in H.
  - destruct b as [|y b]; simpl in H.
    + injection H as _ H. now apply snoc_not_nil in H.
    + injection H as _ H. now apply (IH b).
Qed.

(** A domain that ends with [.gov] ends with no educational suffix. *)
Lemma gov_not_edu (d : string) :
  endswith d ".gov" = true ->
  endswith_any d [".edu"; ".ac.in"; ".edu.in"] = false.
Proof.
  intros Hg. apply ends_with_spec in Hg as [p ->].
  apply not_true_is_false. intros H.
  apply endswith_any_spec in H as [suf [q [Hin E]]].
  replace (p ++ ".gov") with ((p ++ ".go") ++ "v") in E
    by now rewrite sapp_assoc.
  simpl in Hin. destruct Hin as [<- | [<- | [<- | []]]].
  - replace (q ++ ".edu") with ((q ++ ".ed") ++ "u") in E
      by now rewrite sapp_assoc.
    apply snoc_last_eq in E. discriminate.
  - replace (q ++ ".ac.in") with ((q ++ ".ac.i") ++ "n") in E
      by now rewrite sapp_assoc.
    apply snoc_last_eq in E. discriminate.
  - replace (q ++ ".edu.in") with ((q ++ ".edu.i") ++ "n") in E
      by now rewrite sapp_assoc.
    apply snoc_last_eq in E. discriminate.
Qed.

(** The entries of the provider table are not the fallback entries. *)
Lemma mapping_entry_named (key : string) (val : string * string * string) :
  In (key, val) mapping ->
  info_of val <> edu_entry /\ info_of val <> gov_entry /\
  info_of val <> custom_entry.
Proof.
  intros Hin.
  assert (H : forallb
                (fun kv : string * (string * string * string) =>
                   negb (existsb (String.eqb (provider_name (info_of (snd kv))))
                           [ "Educational (edu)"; "Government (gov)";
                             "Custom / Organization" ]))
                mapping = true) by reflexivity.
  rewrite forallb_forall in H. specialize (H _ Hin). simpl snd in H.
  apply negb_true_iff in H. simpl in H.
  apply orb_false_iff in H as [H1 H].
  apply orb_false_iff in H as [H2 H].
  apply orb_false_iff in H as [H3 _].
  apply String.eqb_neq in H1, H2, H3.
  repeat split; intros E; rewrite E in H1, H2, H3;
    [now apply H1 | now apply H2 | now apply H3].
Qed.

(** X20: the provider and type classifiers agree on institutional
    domains: a domain whose provider is the educational entry has the type
    Educational, and one whose provider is the government entry the type
    Government, unless a provider keyword occurs in the domain, which makes
    the type Personal (as for [hotmail.edu]). *)
Theorem institutional_types (d : string) :
  (provider_insights d = edu_entry ->
   detect_email_type d = "Educational / Academic Email" \/
   (has_keyword (lower d) /\ detect_email_type d = "Personal Email")) /\
  (provider_insights d = gov_entry ->
   detect_email_type d = "Government Email" \/
   (has_keyword (lower d) /\ detect_email_type d = "Personal Email")) /\
  provider_insights "hotmail.edu" = edu_entry /\
  detect_email_type "hotmail.edu" = "Personal Email".
Proof.
  assert (Hcases :
            provider_insights d = edu_entry \/ provider_insights d = gov_entry ->
            first_match (lower d) mapping = None).
  { unfold provider_insights. intros H.
    destruct (first_match (lower d) mapping) as [val |] eqn:E; [| reflexivity].
    apply first_match_in in E as [key Hin].
    destruct (mapping_entry_named key val Hin) as [H1 [H2 _]].
    destruct H; contradiction. }
  split; [| split; [| split; reflexivity]].
  - intros H. pose proof (Hcases (or_introl H)) as Hm.
    unfold provider_insights in H. rewrite Hm in H.
    destruct (endswith (lower d) ".edu") eqn:He.
    + unfold detect_email_type.
      destruct (existsb _ personal_keywords) eqn:Hk.
      * right. split; [now apply has_keyword_spec | reflexivity].
      * left. unfold endswith_any. cbn [existsb]. now rewrite He.
    + destruct (endswith (lower d) ".gov"); discriminate.
  - intros H. pose proof (Hcases (or_intror H)) as Hm.
    unfold provider_insights in H. rewrite Hm in H.
    destruct (endswith (lower d) ".edu") eqn:He; [discriminate |].
    destruct (endswith (lower d) ".gov") eqn:Hg; [| discriminate].
    unfold detect_email_type.
    destruct (existsb _ personal_keywords) eqn:Hk.
    + right. split; [now apply has_keyword_spec | reflexivity].
    + left. now rewrite (gov_not_edu _ Hg), Hg.
Qed.

Lemma institutional_types_witness :
  detect_email_type "cs.MIT.edu" = "Educational / Academic Email" /\
  detect_email_type "nasa.gov" = "Government Email".
Proof.
  split.
  - destruct (proj1 (institutional_types "cs.MIT.edu") eq_refl) as [H | [_ H]];
      [exact H | discriminate H].
  - destruct (proj1 (proj2 (institutional_types "nasa.gov")) eq_refl)
      as [H | [_ H]]; [exact H | discriminate H].
Defined.

(** ** Dots at the end of a domain *)

(** C10, as worded, fails for consecutive dots: [validate_email] accepts
    [a@b..c], whose domain holds two dots in a row, and [parse_email]
    returns the extension [c], not the empty one, so that [tld_info] does
    not report "No TLD / local". *)
Lemma consecutive_dots_extension :
  ~ (forall s u d n x,
        validate_email s = true ->
        parse_email s = Some (u, d, n, x) ->
        ends_with d "." \/ str_in ".." d = true ->
        x = "" /\ tld_info x = "No TLD / local").
Proof.
  intros H.
  destruct (H "a@b..c" "a" "b..c" "b" "c" eq_refl eq_refl (or_intror eq_refl))
    as [E _].
  discriminate E.
Qed.

(** C10, amended: [validate_email] accepts [a@b.c.], whose domain ends with
    a dot; on every accepted input whose domain ends with a dot
    [parse_email] returns the empty extension although the domain holds a
    dot, and [tld_info] reports "No TLD / local"; and the extension of an
    accepted input is empty only when its domain ends with a dot. *)
Theorem trailing_dot_accepted :
  (validate_email "a@b.c." = true /\
   parse_email "a@b.c." = Some ("a", "b.c.", "b", "") /\
   ends_with "b.c." "." /\ str_in "." "b.c." = true /\
   tld_info "" = "No TLD / local") /\
  (forall s u d n x,
      validate_email s = true ->
      parse_email s = Some (u, d, n, x) ->
      ends_with d "." ->
      x = "" /\ str_in "." d = true /\ tld_info x = "No TLD / local") /\
  (forall s u d n x,
      validate_email s = true ->
      parse_email s = Some (u, d, n, x) ->
      x = "" ->
      ends_with d ".").
Proof.
  split; [| split].
  - repeat split; try reflexivity. now exists "b.c".
  - intros s u d n x Hv Hp [p Hd].
    destruct (parse_email_cases s) as [[_ Hn] | [u' [d' [E Hu]]]];
      [congruence |].
    rewrite (parse_email_at s u' d' E Hu) in Hp.
    injection Hp as Eu Ed _ Ex. subst u' d'.
    assert (Hx : x = "").
    { rewrite <- Ex, Hd.
      destruct (split_trailing_sep "." p) as [h [l ->]].
      rewrite app_comm_cons, last_last, length_app. simpl.
      destruct (length l); reflexivity. }
    rewrite Hx. split; [reflexivity |]. split; [| reflexivity].
    apply str_in_spec. exists p, "". rewrite Hd. reflexivity.
  - intros s u d n x Hv Hp Hx.
    destruct (validated_fields s Hv)
      as [l [f [r [_ [_ [_ [_ [_ [Hr [_ E]]]]]]]]]].
    rewrite E in Hp. injection Hp as _ <- _ Ex.
    rewrite Hx in Ex.
    destruct (join_last "." (split "." r) (split_not_nil "." r)) as [J | [pre J]];
      rewrite split_join, Ex in J.
    + congruence.
    + exists (f ++ "." ++ pre). rewrite J. now rewrite !sapp_assoc.
Qed.

Lemma trailing_dot_accepted_witness :
  (exists u d n,
      parse_email "info@example.com." = Some (u, d, n, "") /\
      str_in "." d = true /\ tld_info "" = "No TLD / local") /\
  ends_with "b.." ".".
Proof.
  split.
  - exists "info", "example.com.", "example".
    destruct (proj1 (proj2 trailing_dot_accepted) "info@example.com."
                "info" "example.com." "example" "") as [_ [H1 H2]].
    + reflexivity.
    + reflexivity.
    + exists "example.com". reflexivity.
    + split; [reflexivity | split; [exact H1 | exact H2]].
  - apply (proj2 (proj2 trailing_dot_accepted) "a@b.." "a" "b.." "b" "");
      reflexivity.
Defined.
